(** * solid-lightweight-charts: pane/primitive lifecycle, subscriptions, tooltip

    A shallow embedding of the library-facing behaviour of
    [src/helpers/utils.ts], [src/helpers/createTooltip.tsx] and the chart
    components ([TimeChart.tsx], [PriceChart.tsx], [YieldCurveChart.tsx]).

    The charting engine and the SolidJS runtime are external.  Every call the
    wrapper makes on a chart, pane or series object, and every user callback
    it invokes, is recorded in order in a log; a JavaScript exception ends the
    execution with [Thrown].  Object identities (primitives, panes, handlers)
    are natural numbers.  JavaScript numbers are modelled by [Z]: fractional
    values and NaN are outside the model. *)

From stdpp Require Import base list gmap sets strings.
From Stdlib Require Import ZArith Lia.

Open Scope Z_scope.

(** ** Identities and observable calls *)

Definition primitive := nat.   (* an IPanePrimitive / ISeriesPrimitive object *)
Definition paneApi := nat.     (* an IPaneApi object *)
Definition handler := nat.     (* a MouseEventHandler function *)
Definition dataItem := (Z * Z)%type.   (* horizontal-axis value, value *)
Definition marker := (Z * nat)%type.   (* horizontal-axis value, shape tag *)

(** The six method names accepted by [createSubscriptionEffect]. *)
Inductive method :=
| subscribeClick | subscribeDblClick | subscribeCrosshairMove
| unsubscribeClick | unsubscribeDblClick | unsubscribeCrosshairMove.

Inductive call :=
(* IPaneApi *)
| pane_attachPrimitive (pane : paneApi) (p : primitive)
| pane_detachPrimitive (pane : paneApi) (p : primitive)
(* IChartApiBase *)
| chart_method (m : method) (h : handler)      (* chart[m](h) *)
| chart_resize (w h : Z) (forceRepaint : bool)
| chart_addSeries (paneIdx : Z)
| chart_addCustomSeries (paneIdx : Z)
| chart_removeSeries
(* ISeriesApi and createSeriesMarkers *)
| series_setData (d : list dataItem)
| createSeriesMarkers (ms : list marker)
| series_attachPrimitive (p : primitive)
| series_detachPrimitive (p : primitive)
| series_applyOptions
(* user callbacks, named after the prop that carries them *)
| cb_onPrimitivesAttached (ps : list primitive)   (* chart prop *)
| cb_onPrimitivesDetached (ps : list primitive)   (* chart prop *)
| cb_pane_onAttachPrimitives (ps : list primitive)  (* pane prop *)
| cb_pane_onDetachPrimitives (ps : list primitive)  (* pane prop *)
| cb_onAttachPrimitives (ps : list primitive)     (* series prop *)
| cb_onDetachPrimitives (ps : list primitive)     (* series prop *)
| cb_onCreateSeries (paneIdx : Z)
| cb_onRemoveSeries (paneIdx : Z)
| cb_onSetData (d : list dataItem)
| cb_onSetMarkers (ms : list marker)
| cb_onResize (w h : Z)
| cb_onHide
| cb_onShow.

Global Instance method_eq_dec : EqDecision method.
Proof. solve_decision. Defined.
Global Instance call_eq_dec : EqDecision call.
Proof. solve_decision. Defined.

(** ** Executions: a call log and a normal or exceptional end *)

Inductive error :=
| TypeError                  (* a method called on [undefined] *)
| Error (message : string)   (* [throw new Error(message)] *)
| EngineError.               (* an exception raised inside the charting engine *)

Inductive result (A : Type) :=
| Returned (a : A)
| Thrown (e : error).
Arguments Returned {A} a.
Arguments Thrown {A} e.

Record Exec (A : Type) := MkExec { calls : list call; outcome : result A }.
Arguments MkExec {A} calls outcome.
Arguments calls {A} e.
Arguments outcome {A} e.

Global Instance Exec_ret : MRet Exec := λ A a, MkExec [] (Returned a).
Global Instance Exec_bind : MBind Exec := λ A B f m,
  match outcome m with
  | Returned a => MkExec (calls m ++ calls (f a)) (outcome (f a))
  | Thrown e => MkExec (calls m) (Thrown e)
  end.

Definition throw {A} (e : error) : Exec A := MkExec [] (Thrown e).
Definition emit (c : call) : Exec unit := MkExec [c] (Returned tt).

(** [for (const x of xs) body(x)] *)
Fixpoint for_of {A} (xs : list A) (body : A → Exec unit) : Exec unit :=
  match xs with
  | [] => mret tt
  | x :: xs' => body x ;; for_of xs' body
  end.

(** [recv.m(...)] on a receiver that may be [undefined]. *)
Definition invoke {R} (recv : option R) (m : R → call) : Exec unit :=
  match recv with
  | Some r => emit (m r)
  | None => throw TypeError
  end.

(** The charting engine is outside the repository.  Two of the calls the
    wrapper makes on it are not guarded by the wrapper and raise inside the
    engine on an argument out of range: [resize] on a negative width or
    height, [addSeries] and [addCustomSeries] on a negative pane index.  The
    call is made and logged; when the argument is rejected the exception
    ends the execution. *)
Definition resize_accepted (w h : Z) : bool := (0 <=? w) && (0 <=? h).
Definition paneIndex_accepted (idx : Z) : bool := 0 <=? idx.

Definition engine_call (c : call) (accepted : bool) : Exec unit :=
  emit c ;; if accepted then mret tt else throw EngineError.

(** [cb?.(...)]: the optional user callback is called when it was supplied. *)
Definition optional_call (supplied : bool) (c : call) : Exec unit :=
  if supplied then emit c else mret tt.

(** ** src/helpers/utils.ts *)

Definition detachPanePrimitives (primitives : list primitive) (pane : option paneApi)
  : Exec unit :=
  match pane with
  | None => mret tt                                          (* if (!pane) return; *)
  | Some _ =>
      for_of primitives (λ primitive,
        invoke pane (λ pn, pane_detachPrimitive pn primitive))
  end.

Definition attachPanePrimitives (primitives : list primitive) (pane : option paneApi)
  : Exec unit :=
  match pane with
  | None => mret tt                                          (* if (!pane) return; *)
  | Some _ =>
      (* Detach the primitives from the pane before attaching them again *)
      detachPanePrimitives primitives pane ;;
      for_of primitives (λ primitive,
        invoke pane (λ pn, pane_attachPrimitive pn primitive))
  end.

(** [createSubscriptionEffect]: the [eventHandlers] argument is a plain
    value, a single handler or an array of handlers, or [undefined]. *)
Inductive eventHandlers :=
| single (h : handler)
| array (hs : list handler).

(** ** The reactive substrate (SolidJS [createEffect] / [onCleanup])

    An effect body runs once when the effect is created.  While it runs it
    reads reactive sources (props, memos); these reads are its dependencies.
    When a source among the dependencies of the last run is notified, the
    cleanups registered by the last run are executed and the body runs again;
    when the owner is disposed, the cleanups of the last run are executed.
    Cleanups run against the values current at that moment. *)

Inductive source :=
(* chart props *)
| src_autoSize | src_width | src_height | src_forceRepaintOnResize | src_onResize
| src_chart_primitives | src_onPrimitivesAttached | src_onPrimitivesDetached
| src_onClick | src_onDblClick | src_onCrosshairMove | src_chartOptions
(* pane context *)
| src_paneIdx | src_pane_primitives | src_pane_onAttachPrimitives
| src_pane_onDetachPrimitives
(* series props *)
| src_data | src_markers | src_onSetData | src_onSetMarkers
| src_series_primitives | src_onAttachPrimitives | src_onDetachPrimitives
| src_seriesOptions.

Global Instance source_eq_dec : EqDecision source.
Proof. solve_decision. Defined.

Section Reactive.
Context {Env : Type}.

(** What one execution of an effect body leaves behind. *)
Record run := Run {
  reads : list source;            (* sources read while the body ran *)
  cleanup : Env → Exec unit       (* the function given to [onCleanup] *)
}.

Definition effect := Env → Exec run.

(** A change of the inputs: the sources that notify, and the new inputs. *)
Record update := Update { notified : list source; env_after : Env }.

Definition stale (last : run) (u : update) : bool :=
  bool_decide (Exists (λ s, s ∈ notified u) (reads last)).

(** One change: cleanup of the last run, then the body again, if stale. *)
Definition rerun (body : effect) (last : run) (u : update) : Exec run :=
  if stale last u
  then cleanup last (env_after u) ;; body (env_after u)
  else mret last.

(** The changes one after the other, then disposal. *)
Fixpoint drive (body : effect) (last : run) (cur : Env) (us : list update)
  : Exec unit :=
  match us with
  | [] => cleanup last cur
  | u :: us' => r ← rerun body last u; drive body r (env_after u) us'
  end.

(** Creation, changes, disposal. *)
Definition lifecycle (body : effect) (env0 : Env) (us : list update) : Exec unit :=
  r ← body env0; drive body r env0 us.

(** The calls one change causes, when the last run was the one on [old]. *)
Definition change_calls (body : effect) (old : Env) (u : update) : list call :=
  match outcome (body old) with
  | Returned last => calls (rerun body last u)
  | Thrown _ => []
  end.

Definition no_cleanup : Env → Exec unit := λ _, mret tt.

(** [createSubscriptionEffect(chart, methods, eventHandlers)].  The effect
    body closes over the argument [eventHandlers]; it reads no reactive
    source. *)
Definition createSubscriptionEffect (methods : method * method)
    (eventHandlers : option eventHandlers) : effect :=
  λ _,
  match eventHandlers with
  | None => mret (Run [] no_cleanup)                   (* if (!eventHandlers) return; *)
  | Some hs =>
      let '(subscribe, unsubscribe) := methods in
      match hs with
      | array l => for_of l (λ handler, emit (chart_method subscribe handler))
      | single h => emit (chart_method subscribe h)
      end ;;
      mret (Run [] (λ _,
        match hs with
        | array l => for_of l (λ handler, emit (chart_method unsubscribe handler))
        | single h => emit (chart_method unsubscribe h)
        end))
  end.

End Reactive.
Arguments run Env : clear implicits.
Arguments effect Env : clear implicits.
Arguments update Env : clear implicits.

(** ** Props *)

Module ChartProps.
Record t := {
  autoSize : option bool;
  width : option Z;
  height : option Z;
  forceRepaintOnResize : option bool;
  primitives : option (list primitive);
  onPrimitivesAttached : bool;      (* callbacks: supplied or not *)
  onPrimitivesDetached : bool;
  onCreateChart : bool;
  onResize : bool;
  onClick : option eventHandlers;
  onDblClick : option eventHandlers;
  onCrosshairMove : option eventHandlers
}.
End ChartProps.

Module PaneProps.
Record t := {
  index : option Z;
  primitives : option (list primitive);
  onAttachPrimitives : bool;
  onDetachPrimitives : bool
}.
End PaneProps.

Module SeriesProps.
Record t := {
  data : list dataItem;
  primitives : option (list primitive);
  markers : option (list dataItem → list marker);
  onCreateSeries : bool;
  onRemoveSeries : bool;
  onSetData : bool;
  onSetMarkers : bool;
  onAttachPrimitives : bool;
  onDetachPrimitives : bool
}.
End SeriesProps.

(** ** The chart component (TimeChart / PriceChart / YieldCurveChart) *)

(** [mergeProps] defaults of the chart component. *)
Definition chart_autoSize (p : ChartProps.t) : bool := default true (ChartProps.autoSize p).
Definition chart_width (p : ChartProps.t) : Z := default 0 (ChartProps.width p).
Definition chart_height (p : ChartProps.t) : Z := default 0 (ChartProps.height p).
Definition chart_forceRepaintOnResize (p : ChartProps.t) : bool :=
  default false (ChartProps.forceRepaintOnResize p).

(** [const primitives = () => _props.primitives] *)
Definition chartPrimitives (p : ChartProps.t) : list primitive :=
  default [] (ChartProps.primitives p).

Definition onChartPrimitivesAttached (p : ChartProps.t) (primitives : list primitive)
  : Exec unit :=
  optional_call (ChartProps.onPrimitivesAttached p) (cb_onPrimitivesAttached primitives).

Definition onChartPrimitivesDetached (p : ChartProps.t) (primitives : list primitive)
  : Exec unit :=
  optional_call (ChartProps.onPrimitivesDetached p) (cb_onPrimitivesDetached primitives).

(** The per-chart pane counter: [ChartWithPaneState]. *)
Record ChartWithPaneState := { __nextPaneIndex : Z }.

(** [chart.__nextPaneIndex = 1; // 0 is the default pane] *)
Definition createChart : ChartWithPaneState := {| __nextPaneIndex := 1 |}.

(** [chart.__getNextPaneIndex = () => chart.__nextPaneIndex++] *)
Definition __getNextPaneIndex (chart : ChartWithPaneState) : Z * ChartWithPaneState :=
  (__nextPaneIndex chart, {| __nextPaneIndex := __nextPaneIndex chart + 1 |}).

(** The resize effect of the chart's [onMount]. *)
Definition resizeEffect : effect ChartProps.t := λ p,
  if chart_autoSize p then mret (Run [src_autoSize] no_cleanup)   (* return; *)
  else
    engine_call
      (chart_resize (chart_width p) (chart_height p) (chart_forceRepaintOnResize p))
      (resize_accepted (chart_width p) (chart_height p)) ;;
    optional_call (ChartProps.onResize p)
                  (cb_onResize (chart_width p) (chart_height p)) ;;
    mret (Run [src_autoSize; src_width; src_height; src_forceRepaintOnResize;
               src_onResize] no_cleanup).

(** The three subscription effects of the chart's [onMount]; the handler
    props are read there, once, and passed by value. *)
Definition clickSubscription (mounted : ChartProps.t) : effect ChartProps.t :=
  createSubscriptionEffect (subscribeClick, unsubscribeClick)
                           (ChartProps.onClick mounted).
Definition dblClickSubscription (mounted : ChartProps.t) : effect ChartProps.t :=
  createSubscriptionEffect (subscribeDblClick, unsubscribeDblClick)
                           (ChartProps.onDblClick mounted).
Definition crosshairMoveSubscription (mounted : ChartProps.t) : effect ChartProps.t :=
  createSubscriptionEffect (subscribeCrosshairMove, unsubscribeCrosshairMove)
                           (ChartProps.onCrosshairMove mounted).

(** ** Context lookup: [useTimeChart], [usePriceChart], [useYieldCurveChart] *)

Inductive family := TimeChart | PriceChart | YieldCurveChart.

Definition familyName (f : family) : string :=
  match f with
  | TimeChart => "TimeChart"
  | PriceChart => "PriceChart"
  | YieldCurveChart => "YieldCurveChart"
  end.

(** What the chart's context provider hands to its descendants: the chart
    (with its pane counter) and accessors over the chart's props. *)
Record ChartContext := {
  ctx_chart : ChartWithPaneState;
  ctx_props : ChartProps.t
}.

Definition useTimeChart (ctx : option ChartContext) : Exec ChartContext :=
  match ctx with
  | None => throw (Error "[solid-lightweight-charts] No parent TimeChart component found!")
  | Some c => mret c
  end.

Definition usePriceChart (ctx : option ChartContext) : Exec ChartContext :=
  match ctx with
  | None => throw (Error "[solid-lightweight-charts] No parent PriceChart component found!")
  | Some c => mret c
  end.

Definition useYieldCurveChart (ctx : option ChartContext) : Exec ChartContext :=
  match ctx with
  | None =>
      throw (Error "[solid-lightweight-charts] No parent YieldCurveChart component found!")
  | Some c => mret c
  end.

(** The hook each family's sub-components call. *)
Definition useChart (f : family) : option ChartContext → Exec ChartContext :=
  match f with
  | TimeChart => useTimeChart
  | PriceChart => usePriceChart
  | YieldCurveChart => useYieldCurveChart
  end.

(** ** The Pane component *)

(** [PaneContext]: its default value, or the value a Pane declaration
    provides (its memoized index, and accessors over its props). *)
Inductive PaneContext :=
| defaultPaneContext
| providedPaneContext (paneIdx : Z) (props : PaneProps.t).

Definition paneIdx (pc : PaneContext) : Z :=
  match pc with
  | defaultPaneContext => 0                       (* paneIdx: () => 0 *)
  | providedPaneContext idx _ => idx
  end.

Definition panePrimitives (pc : PaneContext) : list primitive :=
  match pc with
  | defaultPaneContext => []                      (* panePrimitives: () => [] *)
  | providedPaneContext _ props => default [] (PaneProps.primitives props)
  end.

Definition onPanePrimitivesAttached (pc : PaneContext) (primitives : list primitive)
  : Exec unit :=
  match pc with
  | defaultPaneContext => mret tt                 (* () => {} *)
  | providedPaneContext _ props =>
      optional_call (PaneProps.onAttachPrimitives props)
                    (cb_pane_onAttachPrimitives primitives)
  end.

Definition onPanePrimitivesDetached (pc : PaneContext) (primitives : list primitive)
  : Exec unit :=
  match pc with
  | defaultPaneContext => mret tt
  | providedPaneContext _ props =>
      optional_call (PaneProps.onDetachPrimitives props)
                    (cb_pane_onDetachPrimitives primitives)
  end.

(** [createMemo(() => _props.index ?? chart().__getNextPaneIndex())] *)
Definition Pane_paneIdx (index : option Z) (chart : ChartWithPaneState)
  : Z * ChartWithPaneState :=
  match index with
  | Some i => (i, chart)
  | None => __getNextPaneIndex chart
  end.

Definition Pane (f : family) (ctx : option ChartContext) (props : PaneProps.t)
  : Exec (PaneContext * ChartWithPaneState) :=
  c ← useChart f ctx;
  let '(idx, chart') := Pane_paneIdx (PaneProps.index props) (ctx_chart c) in
  mret (providedPaneContext idx props, chart').

(** Pane declarations activated one after the other inside one chart: the
    indices they resolve to, in declaration order. *)
Fixpoint declarePanes (indices : list (option Z)) (chart : ChartWithPaneState)
  : list Z * ChartWithPaneState :=
  match indices with
  | [] => ([], chart)
  | index :: rest =>
      let '(idx, chart') := Pane_paneIdx index chart in
      let '(idxs, chart'') := declarePanes rest chart' in
      (idx :: idxs, chart'')
  end.

(** ** The Series and CustomSeries components *)

(** The reactive inputs a series sees: the chart's props (through the chart
    context), the pane context, its own props. *)
Record SeriesEnv := {
  chartProps : ChartProps.t;
  paneCtx : PaneContext;
  seriesProps : SeriesProps.t
}.

(** [mergeProps] defaults of the series components. *)
Definition series_primitives (p : SeriesProps.t) : list primitive :=
  default [] (SeriesProps.primitives p).
Definition series_markers (p : SeriesProps.t) : list dataItem → list marker :=
  default (λ _, []) (SeriesProps.markers p).

(** [xs[i]] for a JavaScript number [i]. *)
Definition lookup_index {A} (xs : list A) (i : Z) : option A :=
  if 0 <=? i then xs !! Z.to_nat i else None.

(** The data effect. *)
Definition dataEffect : effect SeriesEnv := λ e,
  let local := seriesProps e in
  emit (series_setData (SeriesProps.data local)) ;;
  optional_call (SeriesProps.onSetData local) (cb_onSetData (SeriesProps.data local)) ;;
  let dataMarkers := series_markers local (SeriesProps.data local) in
  emit (createSeriesMarkers dataMarkers) ;;
  optional_call (SeriesProps.onSetMarkers local) (cb_onSetMarkers dataMarkers) ;;
  mret (Run [src_data; src_onSetData; src_markers; src_onSetMarkers] no_cleanup).

(** The three scope-dependent choices of the pane-scoped primitive effect:
    [paneIdx() === 0 ? chart... : pane...].  The callbacks read their prop
    when they are called, hence against the inputs of that moment. *)
Definition chartScope (e : SeriesEnv) : bool := bool_decide (paneIdx (paneCtx e) = 0).

Definition currentPanePrimitives (e : SeriesEnv) : list primitive :=
  if chartScope e then chartPrimitives (chartProps e) else panePrimitives (paneCtx e).

Definition attachCallback (e now : SeriesEnv) : list primitive → Exec unit :=
  if chartScope e then onChartPrimitivesAttached (chartProps now)
  else onPanePrimitivesAttached (paneCtx now).

Definition detachCallback (e now : SeriesEnv) : list primitive → Exec unit :=
  if chartScope e then onChartPrimitivesDetached (chartProps now)
  else onPanePrimitivesDetached (paneCtx now).

(** The pane-scoped primitive effect.  [seriesPane] was looked up once, at
    mount. *)
Definition scopePrimitiveEffect (seriesPane : option paneApi) : effect SeriesEnv := λ e,
  attachPanePrimitives (currentPanePrimitives e) seriesPane ;;
  attachCallback e e (currentPanePrimitives e) ;;
  mret (Run (if chartScope e
             then [src_paneIdx; src_chart_primitives; src_onPrimitivesAttached]
             else [src_paneIdx; src_pane_primitives; src_pane_onAttachPrimitives])
            (λ now,
               detachPanePrimitives (currentPanePrimitives e) seriesPane ;;
               detachCallback e now (currentPanePrimitives e))).

(** The series-scoped primitive effect. *)
Definition seriesPrimitiveEffect : effect SeriesEnv := λ e,
  let currentPrimitives := series_primitives (seriesProps e) in
  for_of currentPrimitives (λ primitive, emit (series_attachPrimitive primitive)) ;;
  optional_call (SeriesProps.onAttachPrimitives (seriesProps e))
                (cb_onAttachPrimitives currentPrimitives) ;;
  mret (Run [src_series_primitives; src_onAttachPrimitives]
            (λ now,
               for_of currentPrimitives (λ primitive,
                 emit (series_detachPrimitive primitive)) ;;
               optional_call (SeriesProps.onDetachPrimitives (seriesProps now))
                             (cb_onDetachPrimitives currentPrimitives))).

(** The options effect. *)
Definition optionsEffect : effect SeriesEnv := λ _,
  emit series_applyOptions ;; mret (Run [src_seriesOptions] no_cleanup).

(** [onMount] of Series ([custom = false]) and CustomSeries ([custom = true]):
    creation of the series, lookup of its pane in [chart().panes()], first run
    of the four effects. *)
Definition Series_onMount (custom : bool) (panes : list paneApi) (e : SeriesEnv)
  : Exec unit :=
  let idx := paneIdx (paneCtx e) in
  engine_call (if custom then chart_addCustomSeries idx else chart_addSeries idx)
              (paneIndex_accepted idx) ;;
  optional_call (SeriesProps.onCreateSeries (seriesProps e)) (cb_onCreateSeries idx) ;;
  let seriesPane := lookup_index panes idx in
  _ ← dataEffect e;
  _ ← scopePrimitiveEffect seriesPane e;
  _ ← seriesPrimitiveEffect e;
  _ ← optionsEffect e;
  mret tt.

Definition Series (f : family) (ctx : option ChartContext) (pc : PaneContext)
    (props : SeriesProps.t) (panes : list paneApi) : Exec unit :=
  c ← useChart f ctx;
  Series_onMount false panes
    {| chartProps := ctx_props c; paneCtx := pc; seriesProps := props |}.

Definition CustomSeries (f : family) (ctx : option ChartContext) (pc : PaneContext)
    (props : SeriesProps.t) (panes : list paneApi) : Exec unit :=
  c ← useChart f ctx;
  Series_onMount true panes
    {| chartProps := ctx_props c; paneCtx := pc; seriesProps := props |}.

(** ** src/helpers/createTooltip.tsx *)

Record Point := { x : Z; y : Z }.

(** A horizontal-axis value: a number (UTC timestamp, price, duration), a
    date string, or a business-day object. *)
Inductive HorzScaleItem :=
| horz_number (n : Z)
| horz_string (s : string)
| horz_businessDay (year month day : Z).

(** JavaScript truthiness of a possibly undefined horizontal-axis value. *)
Definition truthy (v : option HorzScaleItem) : bool :=
  match v with
  | None => false
  | Some (horz_number n) => negb (n =? 0)
  | Some (horz_string s) => negb (bool_decide (s = ""%string))
  | Some (horz_businessDay _ _ _) => true
  end.

Module MouseEventParams.
Record t := {
  point : option Point;
  time : option HorzScaleItem;
  seriesData : list (nat * dataItem)     (* Map from series to data value *)
}.
End MouseEventParams.

Module TooltipProps.
Record t := {
  chart : nat;
  seriesData : list (nat * dataItem);
  point : option Point;
  time : option HorzScaleItem
}.
End TooltipProps.

Record TooltipRootProps := { onHide : bool; onShow : bool }.

(** [chart().chartElement()] *)
Record chartElement := { clientWidth : Z; clientHeight : Z }.

(** The two signals of [createTooltip]. *)
Record TooltipState := { visible : bool; tooltipProps : TooltipProps.t }.

Definition initialTooltip (chart : nat) : TooltipState :=
  {| visible := false;
     tooltipProps := {| TooltipProps.chart := chart;
                        TooltipProps.seriesData := [];
                        TooltipProps.point := Some {| x := -1; y := -1 |};
                        TooltipProps.time := None |} |}.

Definition outOfBounds (container : chartElement) (param : MouseEventParams.t) : bool :=
  match MouseEventParams.point param with
  | None => true                                            (* !param.point *)
  | Some point =>
      negb (truthy (MouseEventParams.time param))           (* !param.time *)
      || (x point <? 0)
      || (y point <? 0)
      || (clientWidth container <? x point)
      || (clientHeight container <? y point)
  end.

Definition onCrosshairMove (_props : TooltipRootProps) (chart : nat)
    (container : chartElement) (st : TooltipState) (param : MouseEventParams.t)
  : Exec TooltipState :=
  if outOfBounds container param then
    (* setVisible(false); _props.onHide?.(); return; *)
    optional_call (onHide _props) cb_onHide ;;
    mret {| visible := false; tooltipProps := tooltipProps st |}
  else
    (* batch(() => { setVisible(true); setTooltipProps({...}) }); _props.onShow?.(); *)
    optional_call (onShow _props) cb_onShow ;;
    mret {| visible := true;
            tooltipProps :=
              {| TooltipProps.chart := chart;
                 TooltipProps.seriesData := MouseEventParams.seriesData param;
                 TooltipProps.point := MouseEventParams.point param;
                 TooltipProps.time := MouseEventParams.time param |} |}.

(** [createTooltip]'s [onMount]: [self] is the identity of its
    [onCrosshairMove] closure. *)
Definition createTooltip (self : handler) : Exec unit :=
  emit (chart_method subscribeCrosshairMove self).

Definition Tooltip (f : family) (ctx : option ChartContext) (self : handler) : Exec unit :=
  _ ← useChart f ctx;
  createTooltip self.

(** ** Reading a call log *)

(** The primitives detached from, and attached to, pane [pn], in call order. *)
Definition detached_from (pn : paneApi) (t : list call) : list primitive :=
  omap (λ c, match c with
             | pane_detachPrimitive pn' p => if decide (pn' = pn) then Some p else None
             | _ => None
             end) t.

Definition attached_to (pn : paneApi) (t : list call) : list primitive :=
  omap (λ c, match c with
             | pane_attachPrimitive pn' p => if decide (pn' = pn) then Some p else None
             | _ => None
             end) t.

(** The primitives attached to pane [pn] after the calls [t], when those of
    [held] were attached before: attach adds, detach removes. *)
Fixpoint held_after (pn : paneApi) (held : gset primitive) (t : list call)
  : gset primitive :=
  match t with
  | [] => held
  | pane_attachPrimitive pn' p :: t' =>
      held_after pn (if decide (pn' = pn) then {[p]} ∪ held else held) t'
  | pane_detachPrimitive pn' p :: t' =>
      held_after pn (if decide (pn' = pn) then held ∖ {[p]} else held) t'
  | _ :: t' => held_after pn held t'
  end.

(** No primitive is attached to pane [pn] while it is attached already,
    that is, twice without a detach in between. *)
Fixpoint no_double_attach (pn : paneApi) (held : gset primitive) (t : list call)
  : bool :=
  match t with
  | [] => true
  | pane_attachPrimitive pn' p :: t' =>
      if decide (pn' = pn)
      then bool_decide (p ∉ held) && no_double_attach pn ({[p]} ∪ held) t'
      else no_double_attach pn held t'
  | pane_detachPrimitive pn' p :: t' =>
      no_double_attach pn (if decide (pn' = pn) then held ∖ {[p]} else held) t'
  | _ :: t' => no_double_attach pn held t'
  end.

(** The handlers an [eventHandlers] value stands for. *)
Definition handlers_of (hs : eventHandlers) : list handler :=
  match hs with
  | single h => [h]
  | array l => l
  end.

(** The sources the effect depends on after a run on [e]. *)
Definition scope_reads (e : SeriesEnv) : list source :=
  if chartScope e
  then [src_paneIdx; src_chart_primitives; src_onPrimitivesAttached]
  else [src_paneIdx; src_pane_primitives; src_pane_onAttachPrimitives].

Definition scope_cleanup (sp : option paneApi) (e now : SeriesEnv) : Exec unit :=
  detachPanePrimitives (currentPanePrimitives e) sp ;;
  detachCallback e now (currentPanePrimitives e).

(** A log without any pane attach or detach call. *)
Definition pane_silent (t : list call) : Prop :=
  Forall (λ c, match c with
               | pane_attachPrimitive _ _ | pane_detachPrimitive _ _ => False
               | _ => True
               end) t.

(** ** Sample inputs *)

Definition somePane : paneApi := 7%nat.
Definition p1 : primitive := 1%nat.
Definition p2 : primitive := 2%nat.
Definition h1 : handler := 1%nat.
Definition h2 : handler := 2%nat.

Definition withChartPrimitives (ps : list primitive) : ChartProps.t :=
  {| ChartProps.autoSize := None; ChartProps.width := None; ChartProps.height := None;
     ChartProps.forceRepaintOnResize := None; ChartProps.primitives := Some ps;
     ChartProps.onPrimitivesAttached := true; ChartProps.onPrimitivesDetached := true;
     ChartProps.onCreateChart := false; ChartProps.onResize := true;
     ChartProps.onClick := None; ChartProps.onDblClick := None;
     ChartProps.onCrosshairMove := None |}.

Definition withSize (auto : bool) (w h : Z) : ChartProps.t :=
  {| ChartProps.autoSize := Some auto; ChartProps.width := Some w;
     ChartProps.height := Some h;
     ChartProps.forceRepaintOnResize := None; ChartProps.primitives := None;
     ChartProps.onPrimitivesAttached := false; ChartProps.onPrimitivesDetached := false;
     ChartProps.onCreateChart := true; ChartProps.onResize := true;
     ChartProps.onClick := None; ChartProps.onDblClick := None;
     ChartProps.onCrosshairMove := None |}.

Definition withOnClick (hs : eventHandlers) : ChartProps.t :=
  {| ChartProps.autoSize := None; ChartProps.width := None; ChartProps.height := None;
     ChartProps.forceRepaintOnResize := None; ChartProps.primitives := None;
     ChartProps.onPrimitivesAttached := false; ChartProps.onPrimitivesDetached := false;
     ChartProps.onCreateChart := false; ChartProps.onResize := false;
     ChartProps.onClick := Some hs; ChartProps.onDblClick := None;
     ChartProps.onCrosshairMove := None |}.

Definition lineSeries (d : list dataItem) : SeriesProps.t :=
  {| SeriesProps.data := d; SeriesProps.primitives := None;
     SeriesProps.markers := Some (λ d, (λ item, (item.1, 0%nat)) <$> d);
     SeriesProps.onCreateSeries := false; SeriesProps.onRemoveSeries := false;
     SeriesProps.onSetData := true; SeriesProps.onSetMarkers := true;
     SeriesProps.onAttachPrimitives := false; SeriesProps.onDetachPrimitives := false |}.

Definition paneWith (index : option Z) (ps : list primitive) : PaneProps.t :=
  {| PaneProps.index := index; PaneProps.primitives := Some ps;
     PaneProps.onAttachPrimitives := true; PaneProps.onDetachPrimitives := true |}.

(** A series directly under a chart whose primitives are [ps]. *)
Definition seriesUnderChart (ps : list primitive) : SeriesEnv :=
  {| chartProps := withChartPrimitives ps; paneCtx := defaultPaneContext;
     seriesProps := lineSeries [] |}.

(** A series inside a pane declaration with resolved index [idx]. *)
Definition seriesInPane (idx : Z) (pane : PaneProps.t) (d : list dataItem) : SeriesEnv :=
  {| chartProps := withChartPrimitives [p1]; paneCtx := providedPaneContext idx pane;
     seriesProps := lineSeries d |}.

(** The series of [e], had it been declared directly under the chart. *)
Definition underChart (e : SeriesEnv) : SeriesEnv :=
  {| chartProps := chartProps e; paneCtx := defaultPaneContext;
     seriesProps := seriesProps e |}.

Definition underChartUpdate (u : update SeriesEnv) : update SeriesEnv :=
  Update (notified u) (underChart (env_after u)).

(** The error message a family's hook throws. *)
Definition noParentMessage (f : family) : string :=
  ("[solid-lightweight-charts] No parent " +:+ familyName f +:+ " component found!")%string.

Definition chart800x400 : chartElement := {| clientWidth := 800; clientHeight := 400 |}.
Definition bothTooltipCallbacks : TooltipRootProps := {| onHide := true; onShow := true |}.

(** A tooltip that is visible at (5, 5) over axis value 3. *)
Definition visibleTooltip : TooltipState :=
  {| visible := true;
     tooltipProps := {| TooltipProps.chart := 0%nat;
                        TooltipProps.seriesData := [(0%nat, (3, 100))];
                        TooltipProps.point := Some {| x := 5; y := 5 |};
                        TooltipProps.time := Some (horz_number 3) |} |}.

(** A crosshair-move event inside the chart, over axis value [t]. *)
Definition moveAt (px py : Z) (t : option HorzScaleItem) : MouseEventParams.t :=
  {| MouseEventParams.point := Some {| x := px; y := py |};
     MouseEventParams.time := t;
     MouseEventParams.seriesData := [(0%nat, (0, 100))] |}.

(** ** Further parts of the components *)

(** The series primitives attached and detached, in call order. *)
Definition series_attached (t : list call) : list primitive :=
  omap (λ c, match c with series_attachPrimitive p => Some p | _ => None end) t.

Definition series_detached (t : list call) : list primitive :=
  omap (λ c, match c with series_detachPrimitive p => Some p | _ => None end) t.

(** The sources an update must not notify for an effect run to be kept. *)
Definition untouched (rs notes : list source) : Prop := ∀ s, s ∈ rs → s ∉ notes.

(** [attachPanePrimitives] called twice in a row on the same list and pane. *)
Definition attachTwice (ps : list primitive) (pane : option paneApi) : Exec unit :=
  attachPanePrimitives ps pane ;; attachPanePrimitives ps pane.

(** [attachPanePrimitives] followed by [detachPanePrimitives]. *)
Definition attachThenDetach (ps : list primitive) (pane : option paneApi) : Exec unit :=
  attachPanePrimitives ps pane ;; detachPanePrimitives ps pane.

(** Two series of the same pane: the pane-scoped effect of the first runs,
    then that of the second. *)
Definition twoSeriesMount (pane : option paneApi) (eA eB : SeriesEnv)
  : Exec (run SeriesEnv * run SeriesEnv) :=
  rA ← scopePrimitiveEffect pane eA;
  rB ← scopePrimitiveEffect pane eB;
  mret (rA, rB).

(** ... and then the first series is unmounted while the second stays. *)
Definition twoSeriesUnmountFirst (pane : option paneApi) (eA eB now : SeriesEnv)
  : Exec unit :=
  rs ← twoSeriesMount pane eA eB;
  cleanup rs.1 now.

(** The indices that were assigned automatically, in declaration order:
    [indices] are the declared [index] props, [assigned] the resolved ones. *)
Definition automaticIndices (indices : list (option Z)) (assigned : list Z) : list Z :=
  omap (λ d : option Z * Z, match d.1 with None => Some d.2 | Some _ => None end)
       (zip indices assigned).

(** The number of declarations without explicit index. *)
Definition automaticCount (indices : list (option Z)) : nat :=
  length (filter (λ i : option Z, i = None) indices).

(** *** Tooltip placement and rendering *)

Record Position := { left : Z; top : Z }.

(** The [offset] prop: both coordinates are optional. *)
Record Offset := { offset_x : option Z; offset_y : option Z }.

(** The placement props of the tooltip root.  [onPositionCalculated] may at
    run time return [undefined], which [??] replaces by the computed
    position. *)
Module TooltipLayout.
Record t := {
  offset : option Offset;
  fixed : option bool;
  onPositionCalculated : option (Position → option Position)
}.
End TooltipLayout.

(** [mergeProps] defaults: [fixed: false], [offset: { x: 8, y: 8 }].  The
    merge is shallow: a supplied [offset] object replaces the default one as
    a whole. *)
Definition tooltip_offset (p : TooltipLayout.t) : Offset :=
  default {| offset_x := Some 8; offset_y := Some 8 |} (TooltipLayout.offset p).
Definition tooltip_fixed (p : TooltipLayout.t) : bool :=
  default false (TooltipLayout.fixed p).

(** The [tooltipPosition] memo; [chartRect] is
    [chart().chartElement().getBoundingClientRect()]. *)
Definition tooltipPosition (p : TooltipLayout.t) (chartRect : Position)
    (tp : TooltipProps.t) : Position :=
  let left0 := from_option x 0 (TooltipProps.point tp)
               + default 10 (offset_x (tooltip_offset p)) in
  let top0 := from_option y 0 (TooltipProps.point tp)
              + default 10 (offset_y (tooltip_offset p)) in
  (* For fixed positioning, convert chart-relative coords to viewport coords *)
  let left1 := if tooltip_fixed p then left0 + left chartRect else left0 in
  let top1 := if tooltip_fixed p then top0 + top chartRect else top0 in
  match TooltipLayout.onPositionCalculated p with
  | Some hook => default {| left := left1; top := top1 |}
                         (hook {| left := left1; top := top1 |})
  | None => {| left := left1; top := top1 |}
  end.

(** [<Show when={visible()}>]: where the tooltip root is drawn, if at all. *)
Definition TooltipRoot (p : TooltipLayout.t) (chartRect : Position)
    (st : TooltipState) : option Position :=
  if visible st then Some (tooltipPosition p chartRect (tooltipProps st)) else None.

(** Crosshair-move events delivered one after the other, each with the chart
    element as it is at that moment. *)
Fixpoint crosshairMoves (_props : TooltipRootProps) (chart : nat) (st : TooltipState)
    (events : list (chartElement * MouseEventParams.t)) : Exec TooltipState :=
  match events with
  | [] => mret st
  | ev :: rest =>
      st' ← onCrosshairMove _props chart ev.1 st ev.2;
      crosshairMoves _props chart st' rest
  end.

(** The tooltip props an accepted event leaves. *)
Definition propsOfEvent (chart : nat) (param : MouseEventParams.t) : TooltipProps.t :=
  {| TooltipProps.chart := chart;
     TooltipProps.seriesData := MouseEventParams.seriesData param;
     TooltipProps.point := MouseEventParams.point param;
     TooltipProps.time := MouseEventParams.time param |}.

(** The last event of a sequence that was inside the bounds, if any. *)
Definition lastShown (events : list (chartElement * MouseEventParams.t))
  : option MouseEventParams.t :=
  snd <$> last (filter (λ ev, outOfBounds ev.1 ev.2 = false) events).

Definition noLayout : TooltipLayout.t :=
  {| TooltipLayout.offset := None; TooltipLayout.fixed := None;
     TooltipLayout.onPositionCalculated := None |}.

(** The cleanup the series-scoped primitive effect registers on a run on [e]. *)
Definition series_cleanup (e now : SeriesEnv) : Exec unit :=
  for_of (series_primitives (seriesProps e)) (λ primitive,
    emit (series_detachPrimitive primitive)) ;;
  optional_call (SeriesProps.onDetachPrimitives (seriesProps now))
                (cb_onDetachPrimitives (series_primitives (seriesProps e))).

(** Inputs of a series that differ only in the series' own primitive list. *)
Definition seriesWithPrimitives (ps : list primitive) : SeriesEnv :=
  {| chartProps := withChartPrimitives [];
     paneCtx := defaultPaneContext;
     seriesProps :=
       {| SeriesProps.data := []; SeriesProps.primitives := Some ps;
          SeriesProps.markers := None;
          SeriesProps.onCreateSeries := true; SeriesProps.onRemoveSeries := true;
          SeriesProps.onSetData := false; SeriesProps.onSetMarkers := false;
          SeriesProps.onAttachPrimitives := true;
          SeriesProps.onDetachPrimitives := true |} |}.

(** A chart with autoSize disabled and a height but no width. *)
Definition fixedHeightOnly : ChartProps.t :=
  {| ChartProps.autoSize := Some false; ChartProps.width := None;
     ChartProps.height := Some 300; ChartProps.forceRepaintOnResize := None;
     ChartProps.primitives := None; ChartProps.onPrimitivesAttached := false;
     ChartProps.onPrimitivesDetached := false; ChartProps.onCreateChart := false;
     ChartProps.onResize := true; ChartProps.onClick := None;
     ChartProps.onDblClick := None; ChartProps.onCrosshairMove := None |}.

(** One crosshair-move event followed by the rendering of the tooltip root. *)
Definition drawnAfter (_props : TooltipRootProps) (layout : TooltipLayout.t) (chart : nat)
    (container : chartElement) (chartRect : Position) (st : TooltipState)
    (param : MouseEventParams.t) : Exec (option Position) :=
  st' ← onCrosshairMove _props chart container st param;
  mret (TooltipRoot layout chartRect st').

(** Layouts that differ in one prop. *)
Definition layoutWith (o : option Offset) (f : option bool)
    (hook : option (Position → option Position)) : TooltipLayout.t :=
  {| TooltipLayout.offset := o; TooltipLayout.fixed := f;
     TooltipLayout.onPositionCalculated := hook |}.

Definition translate (by_ : Position) (p : Position) : Position :=
  {| left := left p + left by_; top := top p + top by_ |}.

(** *** Container class and styles *)

(** [local.class ? `solid-lwc-container ${local.class}` : "solid-lwc-container"];
    an empty string is falsy. *)
Definition classes (class : option string) : string :=
  match class with
  | Some c => if bool_decide (c = ""%string) then "solid-lwc-container"%string
              else ("solid-lwc-container " +:+ c)%string
  | None => "solid-lwc-container"%string
  end.

(** A CSS value of the tooltip root or the chart container. *)
Inductive cssValue :=
| css_px (n : Z)            (* `${n}px` *)
| css_number (n : Z)
| css_word (s : string).

(** [{ position: "relative", ...local.style }]: the spread comes last, so the
    entries of the user's style win. *)
Definition containerStyle (style : gmap string cssValue) : gmap string cssValue :=
  style ∪ {[ "position"%string := css_word "relative" ]}.



(** * Properties *)

(** ** Executions *)

Lemma bind_returned {A B} (m : Exec A) (f : A → Exec B) t a :
  m = MkExec t (Returned a) →
  m ≫= f = MkExec (t ++ calls (f a)) (outcome (f a)).
Proof. intros ->. reflexivity. Qed.

Lemma bind_MkExec {A B} (f : A → Exec B) t a :
  MkExec t (Returned a) ≫= f = MkExec (t ++ calls (f a)) (outcome (f a)).
Proof. reflexivity. Qed.

Lemma for_of_emit {A} (xs : list A) (c : A → call) :
  for_of xs (λ x, emit (c x)) = MkExec (c <$> xs) (Returned tt).
Proof.
  induction xs as [|x xs IH]; [reflexivity|].
  cbn [for_of]. rewrite IH. reflexivity.
Qed.

Lemma optional_call_returns b c :
  optional_call b c = MkExec (if b then [c] else []) (Returned tt).
Proof. by destruct b. Qed.

(** ** detachPanePrimitives / attachPanePrimitives *)

Lemma detachPanePrimitives_defined ps pn :
  detachPanePrimitives ps (Some pn)
  = MkExec (pane_detachPrimitive pn <$> ps) (Returned tt).
Proof. unfold detachPanePrimitives, invoke. apply for_of_emit. Qed.

Lemma attachPanePrimitives_defined ps pn :
  attachPanePrimitives ps (Some pn)
  = MkExec ((pane_detachPrimitive pn <$> ps) ++ (pane_attachPrimitive pn <$> ps))
           (Returned tt).
Proof.
  unfold attachPanePrimitives. rewrite detachPanePrimitives_defined.
  unfold invoke. rewrite for_of_emit. reflexivity.
Qed.

(** Without the guard, a call on an undefined pane would throw. *)
Lemma invoke_undefined_throws (m : paneApi → call) :
  invoke None m = MkExec [] (Thrown TypeError).
Proof. reflexivity. Qed.

(** ** The pane-scoped primitive effect *)

Lemma exec_eta {A} (m : Exec A) a :
  outcome m = Returned a → m = MkExec (calls m) (Returned a).
Proof. destruct m as [t o]. simpl. by intros ->. Qed.

Lemma chartScope_true e : paneIdx (paneCtx e) = 0 → chartScope e = true.
Proof. intros H. unfold chartScope. by apply bool_decide_eq_true. Qed.

Lemma attachCallback_outcome e now ps : outcome (attachCallback e now ps) = Returned tt.
Proof.
  unfold attachCallback, onChartPrimitivesAttached, onPanePrimitivesAttached.
  destruct (chartScope e); [|destruct (paneCtx now)];
    rewrite ?optional_call_returns; reflexivity.
Qed.

Lemma detachCallback_outcome e now ps : outcome (detachCallback e now ps) = Returned tt.
Proof.
  unfold detachCallback, onChartPrimitivesDetached, onPanePrimitivesDetached.
  destruct (chartScope e); [|destruct (paneCtx now)];
    rewrite ?optional_call_returns; reflexivity.
Qed.

Lemma attachPanePrimitives_outcome ps sp : outcome (attachPanePrimitives ps sp) = Returned tt.
Proof. destruct sp; [by rewrite attachPanePrimitives_defined | reflexivity]. Qed.

Lemma detachPanePrimitives_outcome ps sp : outcome (detachPanePrimitives ps sp) = Returned tt.
Proof. destruct sp; [by rewrite detachPanePrimitives_defined | reflexivity]. Qed.

Lemma scopePrimitiveEffect_run sp e :
  scopePrimitiveEffect sp e
  = MkExec (calls (attachPanePrimitives (currentPanePrimitives e) sp)
            ++ calls (attachCallback e e (currentPanePrimitives e)))
           (Returned (Run (scope_reads e) (scope_cleanup sp e))).
Proof.
  unfold scopePrimitiveEffect.
  rewrite (exec_eta _ _ (attachPanePrimitives_outcome (currentPanePrimitives e) sp)).
  rewrite (exec_eta _ _ (attachCallback_outcome e e (currentPanePrimitives e))).
  cbn. by rewrite app_nil_r.
Qed.

Lemma scope_cleanup_run sp e now :
  scope_cleanup sp e now
  = MkExec (calls (detachPanePrimitives (currentPanePrimitives e) sp)
            ++ calls (detachCallback e now (currentPanePrimitives e)))
           (Returned tt).
Proof.
  unfold scope_cleanup.
  rewrite (exec_eta _ _ (detachPanePrimitives_outcome (currentPanePrimitives e) sp)).
  rewrite (exec_eta _ _ (detachCallback_outcome e now (currentPanePrimitives e))).
  reflexivity.
Qed.

(** ** Reading logs *)

Lemma detached_from_app pn t1 t2 :
  detached_from pn (t1 ++ t2) = detached_from pn t1 ++ detached_from pn t2.
Proof. apply omap_app. Qed.

Lemma attached_to_app pn t1 t2 :
  attached_to pn (t1 ++ t2) = attached_to pn t1 ++ attached_to pn t2.
Proof. apply omap_app. Qed.

Lemma detached_from_detaches pn ps : detached_from pn (pane_detachPrimitive pn <$> ps) = ps.
Proof.
  induction ps as [|p ps IH]; [reflexivity|].
  cbn. rewrite decide_True by done. cbn. f_equal. exact IH.
Qed.

Lemma detached_from_attaches pn pn' ps :
  detached_from pn (pane_attachPrimitive pn' <$> ps) = [].
Proof. induction ps as [|p ps IH]; [reflexivity | exact IH]. Qed.

Lemma attached_to_attaches pn ps : attached_to pn (pane_attachPrimitive pn <$> ps) = ps.
Proof.
  induction ps as [|p ps IH]; [reflexivity|].
  cbn. rewrite decide_True by done. cbn. f_equal. exact IH.
Qed.

Lemma attached_to_detaches pn pn' ps :
  attached_to pn (pane_detachPrimitive pn' <$> ps) = [].
Proof. induction ps as [|p ps IH]; [reflexivity | exact IH]. Qed.

Lemma pane_silent_detached pn t : pane_silent t → detached_from pn t = [].
Proof.
  induction 1 as [|c t Hc _ IH]; [reflexivity|].
  destruct c; try contradiction; exact IH.
Qed.

Lemma pane_silent_attached pn t : pane_silent t → attached_to pn t = [].
Proof.
  induction 1 as [|c t Hc _ IH]; [reflexivity|].
  destruct c; try contradiction; exact IH.
Qed.

Lemma pane_silent_held pn held t : pane_silent t → held_after pn held t = held.
Proof.
  induction 1 as [|c t Hc _ IH]; [reflexivity|].
  destruct c; try contradiction; exact IH.
Qed.

Lemma pane_silent_no_double_attach pn held t :
  pane_silent t → no_double_attach pn held t = true.
Proof.
  induction 1 as [|c t Hc _ IH]; [reflexivity|].
  destruct c; try contradiction; exact IH.
Qed.

Lemma optional_call_silent b c :
  match c with
  | pane_attachPrimitive _ _ | pane_detachPrimitive _ _ => False
  | _ => True
  end →
  pane_silent (calls (optional_call b c)).
Proof.
  intros Hc. rewrite optional_call_returns. destruct b; cbn.
  - by constructor.
  - constructor.
Qed.

Lemma attachCallback_silent e now ps : pane_silent (calls (attachCallback e now ps)).
Proof.
  unfold attachCallback, onChartPrimitivesAttached, onPanePrimitivesAttached.
  destruct (chartScope e); [|destruct (paneCtx now)];
    try (by apply optional_call_silent); constructor.
Qed.

Lemma detachCallback_silent e now ps : pane_silent (calls (detachCallback e now ps)).
Proof.
  unfold detachCallback, onChartPrimitivesDetached, onPanePrimitivesDetached.
  destruct (chartScope e); [|destruct (paneCtx now)];
    try (by apply optional_call_silent); constructor.
Qed.

Lemma held_after_app pn held t1 t2 :
  held_after pn held (t1 ++ t2) = held_after pn (held_after pn held t1) t2.
Proof.
  revert held. induction t1 as [|c t1 IH]; intros held; [reflexivity|].
  destruct c; cbn; apply IH.
Qed.

Lemma no_double_attach_app pn held t1 t2 :
  no_double_attach pn held (t1 ++ t2)
  = no_double_attach pn held t1 && no_double_attach pn (held_after pn held t1) t2.
Proof.
  revert held. induction t1 as [|c t1 IH]; intros held; [reflexivity|].
  destruct c; cbn; try apply IH.
  case_decide; [|apply IH]. rewrite IH. by rewrite andb_assoc.
Qed.

Lemma held_after_detaches pn held ps :
  held_after pn held (pane_detachPrimitive pn <$> ps) = held ∖ list_to_set ps.
Proof.
  revert held. induction ps as [|p ps IH]; intros held; cbn.
  - by rewrite difference_empty_L.
  - rewrite decide_True by done. rewrite IH.
    apply set_eq. intros q.
    rewrite !elem_of_difference, elem_of_union, elem_of_singleton. tauto.
Qed.

Lemma held_after_attaches pn held ps :
  held_after pn held (pane_attachPrimitive pn <$> ps) = list_to_set ps ∪ held.
Proof.
  revert held. induction ps as [|p ps IH]; intros held; cbn.
  - by rewrite union_empty_l_L.
  - rewrite decide_True by done. rewrite IH.
    apply set_eq. intros q. rewrite !elem_of_union. tauto.
Qed.

Lemma no_double_attach_detaches pn held ps :
  no_double_attach pn held (pane_detachPrimitive pn <$> ps) = true.
Proof. revert held. induction ps as [|p ps IH]; intros held; [reflexivity | apply IH]. Qed.

Lemma no_double_attach_attaches pn held ps :
  NoDup ps → (∀ p, p ∈ ps → p ∉ held) →
  no_double_attach pn held (pane_attachPrimitive pn <$> ps) = true.
Proof.
  intros Hnd. revert held. induction Hnd as [|p ps Hp Hnd IH]; intros held Hfresh.
  - reflexivity.
  - cbn. rewrite decide_True by done.
    rewrite bool_decide_true by (apply Hfresh; left).
    cbn. apply IH. intros q Hq [->%elem_of_singleton|Hh]%elem_of_union.
    + contradiction.
    + by apply (Hfresh q (list_elem_of_further _ _ _ Hq)).
Qed.

Lemma no_double_attach_attaches_inv pn held ps :
  no_double_attach pn held (pane_attachPrimitive pn <$> ps) = true →
  NoDup ps ∧ ∀ p, p ∈ ps → p ∉ held.
Proof.
  revert held. induction ps as [|p ps IH]; intros held H.
  - split; [constructor|]. by intros p ?%elem_of_nil.
  - cbn in H. rewrite decide_True in H by done.
    apply andb_true_iff in H as [Hp H]. apply bool_decide_eq_true in Hp.
    apply IH in H as [Hnd Hfresh]. split.
    + apply NoDup_cons. split; [|done].
      intros Hin. apply (Hfresh p Hin), elem_of_union. left. by apply elem_of_singleton.
    + intros q [->|Hq]%elem_of_cons; [done|].
      intros Hh. apply (Hfresh q Hq), elem_of_union. by right.
Qed.

(** Detach-all then attach-all never attaches an attached primitive, whatever
    was attached before, when the list has no repetition. *)
Lemma detach_then_attach_ok pn held ps :
  NoDup ps →
  no_double_attach pn held
    ((pane_detachPrimitive pn <$> ps) ++ (pane_attachPrimitive pn <$> ps)) = true.
Proof.
  intros Hnd. rewrite no_double_attach_app, no_double_attach_detaches. cbn.
  apply no_double_attach_attaches; [done|].
  intros p Hp. rewrite held_after_detaches.
  intros [_ Hnot]%elem_of_difference. apply Hnot. by apply elem_of_list_to_set.
Qed.

(** ** Effects under change *)

Lemma stale_intro {Env} (last : run Env) (u : update Env) s :
  s ∈ reads last → s ∈ notified u → stale last u = true.
Proof.
  intros Hr Hn. unfold stale. apply bool_decide_eq_true.
  apply Exists_exists. eauto.
Qed.

Lemma stale_no_reads {Env} (last : run Env) (u : update Env) :
  reads last = [] → stale last u = false.
Proof.
  intros Hr. unfold stale. rewrite Hr. apply bool_decide_eq_false.
  by intros ?%Exists_nil.
Qed.

Lemma rerun_stale {Env} (body : effect Env) last u t :
  stale last u = true →
  cleanup last (env_after u) = MkExec t (Returned tt) →
  rerun body last u
  = MkExec (t ++ calls (body (env_after u))) (outcome (body (env_after u))).
Proof.
  intros Hs Hc. unfold rerun. rewrite Hs.
  by rewrite (bind_returned _ _ _ _ Hc).
Qed.

Lemma rerun_fresh {Env} (body : effect Env) last u :
  stale last u = false → rerun body last u = MkExec [] (Returned last).
Proof. intros Hs. unfold rerun. by rewrite Hs. Qed.


(** ** The whole life of the pane-scoped effect *)

Section ScopeLifecycle.
Variable sp : option paneApi.
Variable P : list call → Prop.
Variable Q : SeriesEnv → Prop.
Hypothesis P_nil : P [].
Hypothesis P_app : ∀ t1 t2, P t1 → P t2 → P (t1 ++ t2).
Hypothesis P_silent : ∀ t, pane_silent t → P t.
Hypothesis P_attach : ∀ e, Q e → P (calls (attachPanePrimitives (currentPanePrimitives e) sp)).
Hypothesis P_detach : ∀ e, P (calls (detachPanePrimitives (currentPanePrimitives e) sp)).

Lemma scope_body_inv e :
  Q e → P (calls (scopePrimitiveEffect sp e)).
Proof.
  intros He. rewrite scopePrimitiveEffect_run. cbn [calls].
  apply P_app; [by apply P_attach | apply P_silent, attachCallback_silent].
Qed.

Lemma scope_cleanup_inv e now : P (calls (scope_cleanup sp e now)).
Proof.
  rewrite scope_cleanup_run. cbn [calls].
  apply P_app; [apply P_detach | apply P_silent, detachCallback_silent].
Qed.

Lemma scope_drive_inv us : ∀ e cur,
  Forall (λ u, Q (env_after u)) us →
  P (calls (drive (scopePrimitiveEffect sp) (Run (scope_reads e) (scope_cleanup sp e)) cur us))
  ∧ outcome (drive (scopePrimitiveEffect sp) (Run (scope_reads e) (scope_cleanup sp e)) cur us)
    = Returned tt.
Proof.
  induction us as [|u us IH]; intros e cur HQ.
  - cbn [drive cleanup]. split; [apply scope_cleanup_inv|].
    by rewrite scope_cleanup_run.
  - apply Forall_cons in HQ as [Hu HQ]. cbn [drive].
    destruct (stale (Run (scope_reads e) (scope_cleanup sp e)) u) eqn:Hs.
    + erewrite (bind_returned (rerun _ _ _)); last first.
      { erewrite rerun_stale; [|exact Hs|apply scope_cleanup_run].
        rewrite scopePrimitiveEffect_run. cbn [calls outcome]. reflexivity. }
      cbn [calls outcome]. destruct (IH (env_after u) (env_after u) HQ) as [IH1 IH2].
      split; [|exact IH2].
      apply P_app; [|exact IH1]. apply P_app.
      * pose proof (scope_cleanup_inv e (env_after u)) as Hc.
        by rewrite scope_cleanup_run in Hc.
      * pose proof (scope_body_inv _ Hu) as Hb.
        by rewrite scopePrimitiveEffect_run in Hb.
    + rewrite (bind_returned _ _ _ _ (rerun_fresh _ _ _ Hs)). cbn [calls outcome app].
      apply IH, HQ.
Qed.

Lemma scope_lifecycle_inv e0 us :
  Q e0 → Forall (λ u, Q (env_after u)) us →
  P (calls (lifecycle (scopePrimitiveEffect sp) e0 us))
  ∧ outcome (lifecycle (scopePrimitiveEffect sp) e0 us) = Returned tt.
Proof.
  intros H0 HQ. unfold lifecycle.
  rewrite (bind_returned _ _ _ _ (scopePrimitiveEffect_run sp e0)).
  cbn [calls outcome]. destruct (scope_drive_inv us e0 e0 HQ) as [H1 H2].
  split; [|exact H2]. apply P_app; [|exact H1].
  pose proof (scope_body_inv _ H0) as Hb. by rewrite scopePrimitiveEffect_run in Hb.
Qed.

End ScopeLifecycle.

Lemma pane_silent_app t1 t2 : pane_silent t1 → pane_silent t2 → pane_silent (t1 ++ t2).
Proof. apply Forall_app_2. Qed.

(** With an undefined pane, no pane call is ever made and nothing is thrown,
    whatever the changes. *)
Lemma undefined_pane_lifecycle_silent e0 us :
  pane_silent (calls (lifecycle (scopePrimitiveEffect None) e0 us))
  ∧ outcome (lifecycle (scopePrimitiveEffect None) e0 us) = Returned tt.
Proof.
  apply (scope_lifecycle_inv None pane_silent (λ _, True)); try done.
  - apply pane_silent_app.
  - intros e _. constructor.
  - intros e. constructor.
  - by apply Forall_forall.
Qed.

(** Over the whole life of a series, with lists free of repetitions, no
    primitive is attached to the series' pane twice without a detach in
    between, whatever was attached to that pane at any moment by others is
    accounted for by [held]. *)
Lemma scope_lifecycle_no_double_attach pn e0 us :
  NoDup (currentPanePrimitives e0) →
  Forall (λ u, NoDup (currentPanePrimitives (env_after u))) us →
  ∀ held : gset primitive,
    no_double_attach pn held (calls (lifecycle (scopePrimitiveEffect (Some pn)) e0 us)) = true.
Proof.
  intros H0 Hus.
  apply (scope_lifecycle_inv (Some pn)
           (λ t, ∀ held : gset primitive, no_double_attach pn held t = true)
           (λ e, NoDup (currentPanePrimitives e))); try done.
  - intros t1 t2 H1 H2 held. by rewrite no_double_attach_app, H1, H2.
  - intros t Ht held. by apply pane_silent_no_double_attach.
  - intros e He held. rewrite attachPanePrimitives_defined. by apply detach_then_attach_ok.
  - intros e held. rewrite detachPanePrimitives_defined. apply no_double_attach_detaches.
Qed.

(** ** Replacement of the pane-scoped primitive list *)





(** Why the amended statement asks for a list without repetition: a new
    list that holds the same primitive twice attaches it twice in a row. *)
Example repeated_primitive_attached_twice :
  change_calls (scopePrimitiveEffect (Some somePane)) (seriesUnderChart [])
    (Update [src_chart_primitives] (seriesUnderChart [p1; p1]))
  = [ cb_onPrimitivesDetached [];
      pane_detachPrimitive somePane p1; pane_detachPrimitive somePane p1;
      pane_attachPrimitive somePane p1; pane_attachPrimitive somePane p1;
      cb_onPrimitivesAttached [p1; p1] ]
  ∧ no_double_attach somePane ∅
      (change_calls (scopePrimitiveEffect (Some somePane)) (seriesUnderChart [])
         (Update [src_chart_primitives] (seriesUnderChart [p1; p1])))
    = false.
Proof. split; reflexivity. Qed.

(** Why it asks for a resolved pane: without one nothing is attached. *)
Example unresolved_pane_attaches_nothing :
  change_calls (scopePrimitiveEffect None) (seriesUnderChart [p1])
    (Update [src_chart_primitives] (seriesUnderChart [p1; p2]))
  = [cb_onPrimitivesDetached [p1]; cb_onPrimitivesAttached [p1; p2]].
Proof. reflexivity. Qed.

(** ** Detach before attach *)

Lemma lifecycle_first_run {Env} (body : effect Env) env0 us t r :
  body env0 = MkExec t (Returned r) →
  calls (lifecycle body env0 us) = t ++ calls (drive body r env0 us).
Proof. intros Hb. unfold lifecycle. by rewrite (bind_returned _ _ _ _ Hb). Qed.

(** C3 (as stated, refuted).  The list repeats a primitive.  The attach of
    the list is preceded by the detach of the whole list, and still the
    primitive is attached a second time without a detach in between: the two
    attach calls follow each other. *)
Lemma C3_repeated_primitive_counterexample :
  calls (attachPanePrimitives [p1; p1] (Some somePane))
  = [pane_detachPrimitive somePane p1; pane_detachPrimitive somePane p1;
     pane_attachPrimitive somePane p1; pane_attachPrimitive somePane p1]
  ∧ no_double_attach somePane ∅ (calls (attachPanePrimitives [p1; p1] (Some somePane)))
    = false.
Proof. split; reflexivity. Qed.

(** C3 (amended).  [attachPanePrimitives] on a resolved pane first detaches
    the whole list from that pane and only then attaches it: its calls are
    the detach of every primitive of the list followed by the attach of every
    primitive of the list.  So each attach call is preceded, within the same
    call of [attachPanePrimitives], by the detach of every primitive of the
    list, and whatever was attached to the pane when [attachPanePrimitives]
    is called, no primitive of the list is attached any more when the
    attaching starts.  This holds on first activation as well: the log of a
    series' pane-scoped effect begins with the detach of its first list.
    Whatever was attached to the pane before, no primitive is attached a
    second time without a detach in between exactly when the list has no
    repeated primitive. *)
Theorem C3_attach_preceded_by_full_detach (ps : list primitive) (pn : paneApi) :
  attachPanePrimitives ps (Some pn)
  = MkExec ((pane_detachPrimitive pn <$> ps) ++ (pane_attachPrimitive pn <$> ps))
           (Returned tt)
  ∧ (∀ t1 t2 p,
       calls (attachPanePrimitives ps (Some pn)) = t1 ++ pane_attachPrimitive pn p :: t2 →
       ∀ q, q ∈ ps → pane_detachPrimitive pn q ∈ t1)
  ∧ (∀ (held : gset primitive) p,
       p ∈ ps → p ∉ held_after pn held (pane_detachPrimitive pn <$> ps))
  ∧ (∀ (e : SeriesEnv) (us : list (update SeriesEnv)), ∃ rest,
       calls (lifecycle (scopePrimitiveEffect (Some pn)) e us)
       = (pane_detachPrimitive pn <$> currentPanePrimitives e)
         ++ (pane_attachPrimitive pn <$> currentPanePrimitives e) ++ rest)
  ∧ (∀ held : gset primitive,
       no_double_attach pn held (calls (attachPanePrimitives ps (Some pn))) = true
       ↔ NoDup ps).
Proof.
  split; [apply attachPanePrimitives_defined|]. split; [|split; [|split]].
  2:{ intros held p Hp. rewrite held_after_detaches.
      intros [_ Hnot]%elem_of_difference. apply Hnot. by apply elem_of_list_to_set. }
  - intros t1 t2 p Heq q Hq. rewrite attachPanePrimitives_defined in Heq.
    cbn [calls] in Heq. symmetry in Heq.
    apply app_eq_inv in Heq as [(k & Hk & _)|(k & Hk & Hk2)].
    + rewrite Hk. apply elem_of_app. left. by apply list_elem_of_fmap_2.
    + destruct k as [|c k].
      * rewrite app_nil_r in Hk. subst t1. by apply list_elem_of_fmap_2.
      * cbn in Hk2. injection Hk2 as Hc _. subst c.
        assert (Hin : pane_attachPrimitive pn p ∈ pane_detachPrimitive pn <$> ps).
        { rewrite Hk. apply elem_of_app. right. left. }
        apply list_elem_of_fmap in Hin as (? & ? & _). discriminate.
  - intros e us. eexists.
    erewrite lifecycle_first_run by apply scopePrimitiveEffect_run.
    rewrite attachPanePrimitives_defined. cbn [calls].
    rewrite <- !app_assoc. reflexivity.
  - intros held. rewrite attachPanePrimitives_defined. cbn [calls]. split.
    + rewrite no_double_attach_app, no_double_attach_detaches. cbn [andb].
      by intros [Hnd _]%no_double_attach_attaches_inv.
    + apply detach_then_attach_ok.
Qed.

Lemma C3_attach_preceded_by_full_detach_witness :
  (calls (attachPanePrimitives [p1; p2] (Some somePane))
   = [pane_detachPrimitive somePane p1; pane_detachPrimitive somePane p2;
      pane_attachPrimitive somePane p1]
     ++ pane_attachPrimitive somePane p2 :: []
   ∧ p2 ∈ [p1; p2]
   ∧ pane_detachPrimitive somePane p2
     ∈ [pane_detachPrimitive somePane p1; pane_detachPrimitive somePane p2;
        pane_attachPrimitive somePane p1])
  ∧ (NoDup [p1; p2]
     ∧ no_double_attach somePane {[p1; p2]}
         (calls (attachPanePrimitives [p1; p2] (Some somePane)))
       = true).
Proof.
  assert (H1 : calls (attachPanePrimitives [p1; p2] (Some somePane))
    = [pane_detachPrimitive somePane p1; pane_detachPrimitive somePane p2;
       pane_attachPrimitive somePane p1]
      ++ pane_attachPrimitive somePane p2 :: []) by reflexivity.
  assert (H2 : p2 ∈ [p1; p2]) by (right; left).
  assert (H3 : NoDup [p1; p2]).
  { apply NoDup_cons. split; [|apply NoDup_singleton].
    intros H%list_elem_of_singleton. discriminate H. }
  split.
  - split; [exact H1|]. split; [exact H2|].
    exact (proj1 (proj2 (C3_attach_preceded_by_full_detach [p1; p2] somePane))
             _ _ _ H1 p2 H2).
  - split; [exact H3|].
    exact (proj2 (proj2 (proj2 (proj2 (proj2
             (C3_attach_preceded_by_full_detach [p1; p2] somePane))))
             {[p1; p2]}) H3).
Defined.

(** ** Undefined pane *)

(** C9.  When the pane object is undefined, for instance because the chart's
    pane list has no entry at the series' pane index at mount time,
    [attachPanePrimitives] and [detachPanePrimitives] make no call and return
    normally.  The pane-scoped effect and its cleanup then make no pane call
    and still invoke the attached and the detached callback with the full
    list: in chart scope (pane index 0) the chart's callbacks, each when
    supplied, with the chart's list; in pane scope the Pane declaration's
    callbacks, each when supplied, with the declaration's list.  The same
    holds from mount to unmount.  Over the whole life of the effect no pane
    call is made and no exception is thrown. *)
Theorem C9_undefined_pane_is_silent (ps : list primitive) (e : SeriesEnv) :
  attachPanePrimitives ps None = MkExec [] (Returned tt)
  ∧ detachPanePrimitives ps None = MkExec [] (Returned tt)
  ∧ outcome (scopePrimitiveEffect None e)
    = Returned (Run (scope_reads e) (scope_cleanup None e))
  ∧ (paneIdx (paneCtx e) = 0 →
     let l := default [] (ChartProps.primitives (chartProps e)) in
     calls (scopePrimitiveEffect None e)
     = (if ChartProps.onPrimitivesAttached (chartProps e)
        then [cb_onPrimitivesAttached l] else [])
     ∧ (∀ now, scope_cleanup None e now
               = MkExec (if ChartProps.onPrimitivesDetached (chartProps now)
                         then [cb_onPrimitivesDetached l] else [])
                        (Returned tt))
     ∧ (∀ panes, lookup_index panes (paneIdx (paneCtx e)) = None →
          lifecycle (scopePrimitiveEffect (lookup_index panes (paneIdx (paneCtx e)))) e []
          = MkExec ((if ChartProps.onPrimitivesAttached (chartProps e)
                     then [cb_onPrimitivesAttached l] else [])
                    ++ (if ChartProps.onPrimitivesDetached (chartProps e)
                        then [cb_onPrimitivesDetached l] else []))
                   (Returned tt)))
  ∧ (∀ idx props, paneCtx e = providedPaneContext idx props → idx ≠ 0 →
     let l := default [] (PaneProps.primitives props) in
     calls (scopePrimitiveEffect None e)
     = (if PaneProps.onAttachPrimitives props
        then [cb_pane_onAttachPrimitives l] else [])
     ∧ (∀ now idx' props', paneCtx now = providedPaneContext idx' props' →
          scope_cleanup None e now
          = MkExec (if PaneProps.onDetachPrimitives props'
                    then [cb_pane_onDetachPrimitives l] else [])
                   (Returned tt))
     ∧ (∀ panes, lookup_index panes (paneIdx (paneCtx e)) = None →
          lifecycle (scopePrimitiveEffect (lookup_index panes (paneIdx (paneCtx e)))) e []
          = MkExec ((if PaneProps.onAttachPrimitives props
                     then [cb_pane_onAttachPrimitives l] else [])
                    ++ (if PaneProps.onDetachPrimitives props
                        then [cb_pane_onDetachPrimitives l] else []))
                   (Returned tt)))
  ∧ (∀ us, pane_silent (calls (lifecycle (scopePrimitiveEffect None) e us))
           ∧ outcome (lifecycle (scopePrimitiveEffect None) e us) = Returned tt).
Proof.
  split; [reflexivity|]. split; [reflexivity|].
  assert (Hrun : scopePrimitiveEffect None e
    = MkExec (calls (attachCallback e e (currentPanePrimitives e)))
             (Returned (Run (scope_reads e) (scope_cleanup None e)))).
  { rewrite scopePrimitiveEffect_run. reflexivity. }
  assert (Hclean : ∀ now, scope_cleanup None e now
            = MkExec (calls (detachCallback e now (currentPanePrimitives e)))
                     (Returned tt)).
  { intros now. rewrite scope_cleanup_run. reflexivity. }
  assert (Hlife : ∀ panes, lookup_index panes (paneIdx (paneCtx e)) = None →
       lifecycle (scopePrimitiveEffect (lookup_index panes (paneIdx (paneCtx e)))) e []
       = MkExec (calls (attachCallback e e (currentPanePrimitives e))
                 ++ calls (detachCallback e e (currentPanePrimitives e)))
                (Returned tt)).
  { intros panes ->. unfold lifecycle.
    rewrite (bind_returned _ _ _ _ Hrun). cbn [drive cleanup].
    rewrite Hclean. reflexivity. }
  split; [by rewrite Hrun|]. split; [|split].
  - intros Hidx l.
    assert (Hsc : chartScope e = true) by (by apply chartScope_true).
    assert (Hl : currentPanePrimitives e = l)
      by (unfold currentPanePrimitives; by rewrite Hsc).
    assert (Ha : calls (attachCallback e e l)
                 = if ChartProps.onPrimitivesAttached (chartProps e)
                   then [cb_onPrimitivesAttached l] else []).
    { unfold attachCallback, onChartPrimitivesAttached. rewrite Hsc.
      by rewrite optional_call_returns. }
    assert (Hd : ∀ now, calls (detachCallback e now l)
                 = if ChartProps.onPrimitivesDetached (chartProps now)
                   then [cb_onPrimitivesDetached l] else []).
    { intros now. unfold detachCallback, onChartPrimitivesDetached. rewrite Hsc.
      by rewrite optional_call_returns. }
    split; [|split].
    + by rewrite Hrun, Hl.
    + intros now. by rewrite Hclean, Hl, Hd.
    + intros panes Hp. by rewrite (Hlife panes Hp), Hl, Ha, Hd.
  - intros idx props Hctx Hidx l.
    assert (Hsc : chartScope e = false).
    { unfold chartScope. rewrite Hctx. by apply bool_decide_eq_false. }
    assert (Hl : currentPanePrimitives e = l).
    { unfold currentPanePrimitives. rewrite Hsc, Hctx. reflexivity. }
    assert (Ha : calls (attachCallback e e l)
                 = if PaneProps.onAttachPrimitives props
                   then [cb_pane_onAttachPrimitives l] else []).
    { unfold attachCallback, onPanePrimitivesAttached. rewrite Hsc, Hctx.
      by rewrite optional_call_returns. }
    assert (Hd : ∀ now idx' props', paneCtx now = providedPaneContext idx' props' →
                 calls (detachCallback e now l)
                 = if PaneProps.onDetachPrimitives props'
                   then [cb_pane_onDetachPrimitives l] else []).
    { intros now idx' props' Hnow. unfold detachCallback, onPanePrimitivesDetached.
      rewrite Hsc, Hnow. by rewrite optional_call_returns. }
    split; [|split].
    + by rewrite Hrun, Hl.
    + intros now idx' props' Hnow. by rewrite Hclean, Hl, (Hd _ _ _ Hnow).
    + intros panes Hp. by rewrite (Hlife panes Hp), Hl, Ha, (Hd _ _ _ Hctx).
  - intros us. apply undefined_pane_lifecycle_silent.
Qed.

Lemma C9_undefined_pane_witness :
  (lookup_index (@nil paneApi) 0 = None
   ∧ lifecycle (scopePrimitiveEffect (lookup_index [] 0)) (seriesUnderChart [p1; p2]) []
     = MkExec [cb_onPrimitivesAttached [p1; p2]; cb_onPrimitivesDetached [p1; p2]]
              (Returned tt))
  ∧ (lookup_index [somePane] 3 = None
     ∧ lifecycle (scopePrimitiveEffect (lookup_index [somePane] 3))
         (seriesInPane 3 (paneWith (Some 3) [p1; p2]) []) []
       = MkExec [cb_pane_onAttachPrimitives [p1; p2]; cb_pane_onDetachPrimitives [p1; p2]]
                (Returned tt)).
Proof.
  split; (split; [reflexivity|]).
  - exact (proj2 (proj2 (proj1 (proj2 (proj2 (proj2
      (C9_undefined_pane_is_silent [] (seriesUnderChart [p1; p2]))))) eq_refl))
      [] eq_refl).
  - assert (H3 : (3 : Z) ≠ 0) by lia.
    exact (proj2 (proj2 (proj1 (proj2 (proj2 (proj2 (proj2
      (C9_undefined_pane_is_silent [] (seriesInPane 3 (paneWith (Some 3) [p1; p2]) []))))))
      3 (paneWith (Some 3) [p1; p2]) eq_refl H3))
      [somePane] eq_refl).
Defined.

(** ** The pane index allocator *)

Lemma declarePanes_auto (N : nat) : ∀ chart,
  declarePanes (replicate N None) chart
  = ((λ k : nat, __nextPaneIndex chart + Z.of_nat k) <$> seq 0 N,
     {| __nextPaneIndex := __nextPaneIndex chart + Z.of_nat N |}).
Proof.
  induction N as [|N IH]; intros chart.
  - cbn. destruct chart as [n]. cbn. by rewrite Z.add_0_r.
  - cbn [replicate declarePanes Pane_paneIdx __getNextPaneIndex].
    rewrite IH. cbn [__nextPaneIndex seq fmap list_fmap]. f_equal.
    + f_equal; [f_equal; lia|]. rewrite <- seq_shift, <- list_fmap_compose.
      apply list_fmap_ext. intros _ k _. cbn. lia.
    + f_equal. lia.
Qed.

Lemma declarePanes_auto_positive (indices : list (option Z)) : ∀ chart (k : nat),
  1 ≤ __nextPaneIndex chart →
  indices !! k = Some None →
  ∃ idx, (declarePanes indices chart).1 !! k = Some idx ∧ 1 ≤ idx.
Proof.
  induction indices as [|index rest IH]; intros chart k Hc Hk; [done|].
  cbn [declarePanes].
  destruct (Pane_paneIdx index chart) as [idx chart'] eqn:Hp.
  destruct (declarePanes rest chart') as [idxs chart''] eqn:Hd.
  assert (Hc' : 1 ≤ __nextPaneIndex chart').
  { destruct index; cbn in Hp; injection Hp as <- <-; cbn; lia. }
  destruct k as [|k]; cbn in Hk |- *.
  - injection Hk as ->. cbn in Hp. injection Hp as <- _. eauto.
  - destruct (IH chart' k Hc' Hk) as (i & Hi & Hpos). rewrite Hd in Hi. eauto.
Qed.

(** C2.  The pane index of a Pane declaration: an explicit index is returned
    as it is, 0 included, and leaves the counter alone; without one the
    chart's counter, which starts at 1 when the chart is created, is read and
    incremented and the value read is returned.  So N declarations without
    explicit index in one chart get 1, 2, ..., N in declaration order, and an
    automatically assigned index is never 0, whatever explicit indices other
    declarations of the chart carry. *)
Theorem C2_pane_index_allocation :
  (∀ i chart, Pane_paneIdx (Some i) chart = (i, chart))
  ∧ Pane_paneIdx (Some 0) createChart = (0, createChart)
  ∧ __nextPaneIndex createChart = 1
  ∧ (∀ chart, Pane_paneIdx None chart
              = (__nextPaneIndex chart, {| __nextPaneIndex := __nextPaneIndex chart + 1 |}))
  ∧ (∀ N : nat, (declarePanes (replicate N None) createChart).1
                = Z.of_nat <$> seq 1 N)
  ∧ (∀ (indices : list (option Z)) (k : nat),
       indices !! k = Some None →
       ∃ idx, (declarePanes indices createChart).1 !! k = Some idx ∧ idx ≠ 0)
  ∧ (∀ f c props,
       Pane f (Some c) props
       = MkExec [] (Returned
           (providedPaneContext (Pane_paneIdx (PaneProps.index props) (ctx_chart c)).1 props,
            (Pane_paneIdx (PaneProps.index props) (ctx_chart c)).2))).
Proof.
  repeat split.
  - intros N. rewrite declarePanes_auto. cbn [fst __nextPaneIndex createChart].
    rewrite <- seq_shift, <- list_fmap_compose. apply list_fmap_ext.
    intros _ k _. cbn. lia.
  - intros indices k Hk.
    destruct (declarePanes_auto_positive indices createChart k) as (idx & Hi & Hpos);
      [cbn; lia | exact Hk |].
    exists idx. split; [exact Hi | lia].
  - intros f c props. destruct f; cbn;
      by destruct (Pane_paneIdx (PaneProps.index props) (ctx_chart c)).
Qed.

Lemma C2_pane_index_allocation_witness :
  [Some 5; None; Some 0; None] !! 3%nat = Some None
  ∧ ∃ idx, (declarePanes [Some 5; None; Some 0; None] createChart).1 !! 3%nat = Some idx
           ∧ idx ≠ 0.
Proof.
  split; [reflexivity|].
  exact (proj1 (proj2 (proj2 (proj2 (proj2 (proj2 C2_pane_index_allocation)))))
           [Some 5; None; Some 0; None] 3%nat eq_refl).
Defined.

Example three_panes : (declarePanes [None; None; None] createChart).1 = [1; 2; 3].
Proof. reflexivity. Qed.

Example mixed_panes :
  (declarePanes [Some 5; None; Some 0; None] createChart).1 = [5; 1; 0; 2].
Proof. reflexivity. Qed.

(** ** Event subscriptions *)

(** What the subscription effect does when it is created. *)
Lemma createSubscriptionEffect_run {Env} (sub unsub : method)
    (hs : option eventHandlers) (env : Env) :
  ∃ clean,
    createSubscriptionEffect (sub, unsub) hs env
    = MkExec (chart_method sub <$> from_option handlers_of [] hs)
             (Returned (Run [] clean))
    ∧ ∀ now, clean now
             = MkExec (chart_method unsub <$> from_option handlers_of [] hs)
                      (Returned tt).
Proof.
  destruct hs as [[h|l]|].
  - eexists. split; [reflexivity|]. intros now. reflexivity.
  - unfold createSubscriptionEffect. rewrite !for_of_emit.
    eexists. split; [|intros now; reflexivity].
    cbn. by rewrite app_nil_r.
  - eexists. split; reflexivity.
Qed.

(** An effect that read nothing is never run again: only its cleanup is
    left to happen, at disposal. *)
Lemma drive_without_reads {Env} (body : effect Env) (last : run Env) us c : ∀ cur,
  reads last = [] → (∀ now, cleanup last now = c) → drive body last cur us = c.
Proof.
  induction us as [|u us IH]; intros cur Hr Hc; [apply Hc|].
  cbn [drive]. rewrite (rerun_fresh _ _ _ (stale_no_reads last u Hr)).
  unfold mbind, Exec_bind. cbn [outcome calls app].
  rewrite IH by done. by destruct c.
Qed.

Lemma createSubscriptionEffect_lifecycle {Env} (sub unsub : method)
    (hs : option eventHandlers) (env0 : Env) (us : list (update Env)) :
  lifecycle (createSubscriptionEffect (sub, unsub) hs) env0 us
  = MkExec ((chart_method sub <$> from_option handlers_of [] hs)
            ++ (chart_method unsub <$> from_option handlers_of [] hs))
           (Returned tt).
Proof.
  destruct (createSubscriptionEffect_run sub unsub hs env0) as (clean & Hrun & Hclean).
  unfold lifecycle. rewrite (bind_returned _ _ _ _ Hrun).
  assert (Hd : drive (createSubscriptionEffect (sub, unsub) hs) (Run [] clean) env0 us
               = MkExec (chart_method unsub <$> from_option handlers_of [] hs)
                        (Returned tt)).
  { apply drive_without_reads; [reflexivity | exact Hclean]. }
  by rewrite Hd.
Qed.

Lemma createSubscriptionEffect_change {Env} (sub unsub : method)
    (hs : option eventHandlers) (old : Env) (u : update Env) :
  change_calls (createSubscriptionEffect (sub, unsub) hs) old u = [].
Proof.
  destruct (createSubscriptionEffect_run sub unsub hs old) as (clean & Hrun & _).
  unfold change_calls. rewrite Hrun. cbn [outcome].
  by rewrite rerun_fresh by by apply stale_no_reads.
Qed.

(** For each of the three chart events the subscription effect takes a
    single handler or a list of handlers and subscribes all of them once,
    when the chart is mounted, from the value the handler prop has at that
    moment; at teardown it unsubscribes exactly those handlers.  The handlers
    are passed to the effect by value, so a later change of the handler prop
    causes no call at all. *)
Lemma subscribed_at_mount_unsubscribed_at_teardown
    (mounted : ChartProps.t) (us : list (update ChartProps.t)) :
  lifecycle (clickSubscription mounted) mounted us
  = MkExec
      ((chart_method subscribeClick
          <$> from_option handlers_of [] (ChartProps.onClick mounted))
       ++ (chart_method unsubscribeClick
          <$> from_option handlers_of [] (ChartProps.onClick mounted)))
      (Returned tt)
  ∧ lifecycle (dblClickSubscription mounted) mounted us
  = MkExec
      ((chart_method subscribeDblClick
          <$> from_option handlers_of [] (ChartProps.onDblClick mounted))
       ++ (chart_method unsubscribeDblClick
          <$> from_option handlers_of [] (ChartProps.onDblClick mounted)))
      (Returned tt)
  ∧ lifecycle (crosshairMoveSubscription mounted) mounted us
  = MkExec
      ((chart_method subscribeCrosshairMove
          <$> from_option handlers_of [] (ChartProps.onCrosshairMove mounted))
       ++ (chart_method unsubscribeCrosshairMove
          <$> from_option handlers_of [] (ChartProps.onCrosshairMove mounted)))
      (Returned tt)
  ∧ (∀ old u,
       change_calls (clickSubscription mounted) old u = []
       ∧ change_calls (dblClickSubscription mounted) old u = []
       ∧ change_calls (crosshairMoveSubscription mounted) old u = []).
Proof.
  repeat split;
    first [ apply createSubscriptionEffect_lifecycle
          | apply createSubscriptionEffect_change ].
Qed.

Example click_handlers_lifecycle :
  calls (lifecycle (clickSubscription (withOnClick (array [h1; h2])))
           (withOnClick (array [h1; h2])) [])
  = [ chart_method subscribeClick h1; chart_method subscribeClick h2;
      chart_method unsubscribeClick h1; chart_method unsubscribeClick h2 ].
Proof. reflexivity. Qed.

(** C4 fails on the code where the handler set changes: a chart mounted
    with the click handler [h1] whose [onClick] prop is then changed to [h2]
    makes no call at the change, so [h1] is not unsubscribed then and [h2] is
    never subscribed; over the whole life of the chart only [h1] is
    subscribed, at mount, and unsubscribed, at teardown. *)
Theorem C4_changed_handler_is_not_resubscribed :
  ChartProps.onClick (withOnClick (single h2)) = Some (single h2)
  ∧ change_calls (clickSubscription (withOnClick (single h1)))
      (withOnClick (single h1)) (Update [src_onClick] (withOnClick (single h2)))
    = []
  ∧ calls (lifecycle (clickSubscription (withOnClick (single h1)))
             (withOnClick (single h1))
             [Update [src_onClick] (withOnClick (single h2))])
    = [chart_method subscribeClick h1; chart_method unsubscribeClick h1]
  ∧ ¬ (chart_method subscribeClick h2
         ∈ calls (lifecycle (clickSubscription (withOnClick (single h1)))
                    (withOnClick (single h1))
                    [Update [src_onClick] (withOnClick (single h2))])).
Proof.
  split; [reflexivity|]. split; [reflexivity|].
  assert (Hl : calls (lifecycle (clickSubscription (withOnClick (single h1)))
                  (withOnClick (single h1))
                  [Update [src_onClick] (withOnClick (single h2))])
               = [chart_method subscribeClick h1; chart_method unsubscribeClick h1])
    by reflexivity.
  split; [exact Hl|]. rewrite Hl. intros Hin.
  apply elem_of_cons in Hin as [Hin|Hin]; [discriminate Hin|].
  apply list_elem_of_singleton in Hin. discriminate Hin.
Qed.

(** ** The data effect *)

Lemma dataEffect_run e :
  dataEffect e
  = MkExec
      (series_setData (SeriesProps.data (seriesProps e))
       :: (if SeriesProps.onSetData (seriesProps e)
           then [cb_onSetData (SeriesProps.data (seriesProps e))] else [])
       ++ createSeriesMarkers
            (series_markers (seriesProps e) (SeriesProps.data (seriesProps e)))
       :: (if SeriesProps.onSetMarkers (seriesProps e)
           then [cb_onSetMarkers
                   (series_markers (seriesProps e) (SeriesProps.data (seriesProps e)))]
           else []))
      (Returned (Run [src_data; src_onSetData; src_markers; src_onSetMarkers] no_cleanup)).
Proof.
  unfold dataEffect.
  destruct (SeriesProps.onSetData (seriesProps e)),
           (SeriesProps.onSetMarkers (seriesProps e)); reflexivity.
Qed.

(** C5.  When the data input of a series is replaced, the data effect first
    sets the whole new dataset on the series and invokes the data-set
    callback with it, and only then computes the markers by applying the
    marker-derivation function to that same new data, applies them, and
    invokes the markers-set callback with them.  The previous data does not
    enter the calls. *)
Theorem C5_data_set_before_markers_from_new_data
    (old new : SeriesEnv) (notes : list source) :
  src_data ∈ notes →
  change_calls dataEffect old (Update notes new)
  = series_setData (SeriesProps.data (seriesProps new))
    :: (if SeriesProps.onSetData (seriesProps new)
        then [cb_onSetData (SeriesProps.data (seriesProps new))] else [])
    ++ createSeriesMarkers
         (series_markers (seriesProps new) (SeriesProps.data (seriesProps new)))
    :: (if SeriesProps.onSetMarkers (seriesProps new)
        then [cb_onSetMarkers
                (series_markers (seriesProps new) (SeriesProps.data (seriesProps new)))]
        else []).
Proof.
  intros Hn. unfold change_calls. rewrite dataEffect_run. cbn [outcome].
  erewrite rerun_stale; [| |reflexivity].
  - cbn [env_after app calls]. by rewrite dataEffect_run.
  - eapply stale_intro; [|exact Hn]. left.
Qed.

Lemma C5_data_set_before_markers_witness :
  src_data ∈ [src_data]
  ∧ change_calls dataEffect (seriesInPane 1 (paneWith None []) [(1, 100)])
      (Update [src_data] (seriesInPane 1 (paneWith None []) [(1, 100); (2, 105)]))
    = [ series_setData [(1, 100); (2, 105)];
        cb_onSetData [(1, 100); (2, 105)];
        createSeriesMarkers [(1, 0%nat); (2, 0%nat)];
        cb_onSetMarkers [(1, 0%nat); (2, 0%nat)] ].
Proof.
  split; [by left|].
  apply (C5_data_set_before_markers_from_new_data
           (seriesInPane 1 (paneWith None []) [(1, 100)])
           (seriesInPane 1 (paneWith None []) [(1, 100); (2, 105)])
           [src_data]).
  by left.
Defined.

(** ** The resize effect *)

Lemma resize_accepted_true w h : 0 ≤ w → 0 ≤ h → resize_accepted w h = true.
Proof.
  intros Hw Hh. unfold resize_accepted. apply andb_true_intro.
  split; by apply Z.leb_le.
Qed.

Lemma resize_accepted_false w h : w < 0 ∨ h < 0 → resize_accepted w h = false.
Proof.
  intros H. unfold resize_accepted. apply andb_false_iff.
  destruct H; [left|right]; by apply Z.leb_gt.
Qed.

Lemma resizeEffect_manual p :
  chart_autoSize p = false → 0 ≤ chart_width p → 0 ≤ chart_height p →
  resizeEffect p
  = MkExec
      (chart_resize (chart_width p) (chart_height p) (chart_forceRepaintOnResize p)
       :: (if ChartProps.onResize p
           then [cb_onResize (chart_width p) (chart_height p)] else []))
      (Returned (Run [src_autoSize; src_width; src_height; src_forceRepaintOnResize;
                      src_onResize] no_cleanup)).
Proof.
  intros Ha Hw Hh. unfold resizeEffect, engine_call.
  rewrite Ha, (resize_accepted_true _ _ Hw Hh).
  destruct (ChartProps.onResize p); reflexivity.
Qed.

Lemma resizeEffect_rejected p :
  chart_autoSize p = false → chart_width p < 0 ∨ chart_height p < 0 →
  resizeEffect p
  = MkExec
      [chart_resize (chart_width p) (chart_height p) (chart_forceRepaintOnResize p)]
      (Thrown EngineError).
Proof.
  intros Ha Hneg. unfold resizeEffect, engine_call.
  rewrite Ha, (resize_accepted_false _ _ Hneg). reflexivity.
Qed.

Lemma resizeEffect_auto p :
  chart_autoSize p = true →
  resizeEffect p = MkExec [] (Returned (Run [src_autoSize] no_cleanup)).
Proof. intros Ha. unfold resizeEffect. by rewrite Ha. Qed.






(** ** The tooltip *)

(** An event without point, without a truthy axis value, or with a point
    outside the chart element hides the tooltip, calls [onHide] once and
    leaves the tooltip props alone. *)
Lemma onCrosshairMove_hides props chart container st param :
  outOfBounds container param = true →
  onCrosshairMove props chart container st param
  = MkExec (if onHide props then [cb_onHide] else [])
           (Returned {| visible := false; tooltipProps := tooltipProps st |}).
Proof.
  intros Ho. unfold onCrosshairMove. rewrite Ho. by destruct (onHide props).
Qed.

(** Any other event shows the tooltip, replaces the four fields of the
    tooltip props together, and calls [onShow]. *)
Lemma onCrosshairMove_shows props chart container st param :
  outOfBounds container param = false →
  onCrosshairMove props chart container st param
  = MkExec (if onShow props then [cb_onShow] else [])
           (Returned
              {| visible := true;
                 tooltipProps :=
                   {| TooltipProps.chart := chart;
                      TooltipProps.seriesData := MouseEventParams.seriesData param;
                      TooltipProps.point := MouseEventParams.point param;
                      TooltipProps.time := MouseEventParams.time param |} |}).
Proof.
  intros Ho. unfold onCrosshairMove. rewrite Ho. by destruct (onShow props).
Qed.

(** When the event counts as out of bounds. *)
Lemma outOfBounds_spec container param :
  outOfBounds container param = true ↔
  MouseEventParams.point param = None
  ∨ truthy (MouseEventParams.time param) = false
  ∨ ∃ pt, MouseEventParams.point param = Some pt
          ∧ (x pt < 0 ∨ y pt < 0 ∨ clientWidth container < x pt
             ∨ clientHeight container < y pt).
Proof.
  unfold outOfBounds. destruct (MouseEventParams.point param) as [pt|].
  - rewrite !orb_true_iff, negb_true_iff, !Z.ltb_lt. split.
    + intros [[[[H|H]|H]|H]|H]; eauto 10.
    + intros [H|[H|(pt' & [= <-] & H)]]; [done|tauto|tauto].
  - split; [by left | done].
Qed.

(** A defined axis value is falsy exactly when it is the number 0 or the
    empty string. *)
Lemma truthy_defined v :
  truthy (Some v) = false ↔ v = horz_number 0 ∨ v = horz_string "".
Proof.
  destruct v as [n|s|yy mm dd]; cbn.
  - rewrite negb_false_iff, Z.eqb_eq. split; [by intros ->; left|].
    by intros [[= ->]|[=]].
  - rewrite negb_false_iff, bool_decide_eq_true. split; [by intros ->; right|].
    by intros [[=]|[= ->]].
  - split; [done | by intros [[=]|[=]]].
Qed.

(** C7 fails on the code at a defined axis value: a crosshair-move event at
    point (10, 10) of an 800 x 400 chart whose axis value is the number 0 (a
    data point of a PriceChart at x = 0) hides a visible tooltip and calls
    [onHide], although the point is inside the chart and the axis value is
    defined. *)
Theorem C7_axis_value_zero_hides_tooltip :
  MouseEventParams.point (moveAt 10 10 (Some (horz_number 0))) = Some {| x := 10; y := 10 |}
  ∧ MouseEventParams.time (moveAt 10 10 (Some (horz_number 0))) = Some (horz_number 0)
  ∧ onCrosshairMove bothTooltipCallbacks 0%nat chart800x400 visibleTooltip
      (moveAt 10 10 (Some (horz_number 0)))
    = MkExec [cb_onHide]
             (Returned {| visible := false; tooltipProps := tooltipProps visibleTooltip |}).
Proof. repeat split. Qed.

(** The same event over axis value 1 shows the tooltip. *)
Example axis_value_one_shows_tooltip :
  onCrosshairMove bothTooltipCallbacks 0%nat chart800x400 visibleTooltip
    (moveAt 10 10 (Some (horz_number 1)))
  = MkExec [cb_onShow]
      (Returned
         {| visible := true;
            tooltipProps :=
              {| TooltipProps.chart := 0%nat;
                 TooltipProps.seriesData := [(0%nat, (0, 100))];
                 TooltipProps.point := Some {| x := 10; y := 10 |};
                 TooltipProps.time := Some (horz_number 1) |} |}).
Proof. reflexivity. Qed.

(** A point left of the chart hides the tooltip, also when it is hidden
    already, and calls [onHide] each time. *)
Example point_outside_hides_again :
  onCrosshairMove bothTooltipCallbacks 0%nat chart800x400 (initialTooltip 0)
    (moveAt (-1) 0 (Some (horz_number 1)))
  = MkExec [cb_onHide] (Returned (initialTooltip 0)).
Proof. reflexivity. Qed.

(** ** Missing parent chart *)

(** C8.  A Pane, Series, CustomSeries or Tooltip of a chart family that is
    activated without the chart context of that family throws, before making
    any call, an error whose message names the family; the components do
    not catch it: the activation ends with that exception.  Different
    families have different messages. *)
Theorem C8_missing_parent_chart_throws (f : family) :
  (∀ props, Pane f None props = MkExec [] (Thrown (Error (noParentMessage f))))
  ∧ (∀ pc props panes,
       Series f None pc props panes = MkExec [] (Thrown (Error (noParentMessage f))))
  ∧ (∀ pc props panes,
       CustomSeries f None pc props panes = MkExec [] (Thrown (Error (noParentMessage f))))
  ∧ (∀ self, Tooltip f None self = MkExec [] (Thrown (Error (noParentMessage f))))
  ∧ noParentMessage f
    = ("[solid-lightweight-charts] No parent " +:+ familyName f +:+ " component found!")%string
  ∧ (∀ g, noParentMessage g = noParentMessage f → g = f).
Proof.
  repeat split; try (by destruct f).
  intros g. by destruct f, g.
Qed.

Example series_outside_TimeChart :
  Series TimeChart None defaultPaneContext (lineSeries []) []
  = MkExec []
      (Thrown (Error "[solid-lightweight-charts] No parent TimeChart component found!")).
Proof. reflexivity. Qed.

(** ** A Pane declared with index 0 *)

Lemma bind_ext {A B} (m : Exec A) (f g : A → Exec B) :
  (∀ a, f a = g a) → m ≫= f = m ≫= g.
Proof.
  intros Hfg. unfold mbind, Exec_bind. destruct (outcome m); [by rewrite Hfg | done].
Qed.

Lemma bind_assoc {A B C} (m : Exec A) (f : A → Exec B) (g : B → Exec C) :
  (m ≫= f) ≫= g = m ≫= (λ a, f a ≫= g).
Proof.
  destruct m as [t [a|e]]; unfold mbind, Exec_bind; cbn; [|done].
  destruct (f a) as [t' [b|e']]; cbn; [|done].
  by rewrite app_assoc.
Qed.

Lemma chartScope_underChart e : chartScope (underChart e) = true.
Proof. reflexivity. Qed.


Lemma scope_body_underChart sp e :
  chartScope e = true →
  calls (scopePrimitiveEffect sp e) = calls (scopePrimitiveEffect sp (underChart e)).
Proof.
  intros H. rewrite !scopePrimitiveEffect_run. cbn [calls].
  unfold currentPanePrimitives, attachCallback. rewrite H, chartScope_underChart.
  reflexivity.
Qed.

Lemma scope_cleanup_underChart sp e now :
  chartScope e = true →
  scope_cleanup sp e now = scope_cleanup sp (underChart e) (underChart now).
Proof.
  intros H. unfold scope_cleanup, currentPanePrimitives, detachCallback.
  rewrite H, chartScope_underChart. reflexivity.
Qed.

Lemma scope_reads_underChart e :
  chartScope e = true → scope_reads e = scope_reads (underChart e).
Proof. intros H. unfold scope_reads. by rewrite H. Qed.

Lemma scope_drive_underChart sp us : ∀ e cur,
  chartScope e = true →
  Forall (λ u, chartScope (env_after u) = true) us →
  drive (scopePrimitiveEffect sp) (Run (scope_reads e) (scope_cleanup sp e)) cur us
  = drive (scopePrimitiveEffect sp)
      (Run (scope_reads (underChart e)) (scope_cleanup sp (underChart e)))
      (underChart cur) (underChartUpdate <$> us).
Proof.
  induction us as [|u us IH]; intros e cur He Hus.
  - cbn [drive cleanup fmap list_fmap]. by apply scope_cleanup_underChart.
  - apply Forall_cons in Hus as [Hu Hus]. cbn [drive fmap list_fmap].
    unfold rerun, stale. cbn [reads notified underChartUpdate env_after cleanup].
    rewrite <- (scope_reads_underChart e He).
    destruct (bool_decide _).
    + rewrite !bind_assoc. rewrite <- (scope_cleanup_underChart sp e _ He).
      apply bind_ext. intros _.
      rewrite (scopePrimitiveEffect_run sp (env_after u)).
      rewrite (scopePrimitiveEffect_run sp (underChart (env_after u))).
      pose proof (scope_body_underChart sp _ Hu) as Hb.
      rewrite !scopePrimitiveEffect_run in Hb. cbn [calls] in Hb. rewrite Hb.
      rewrite !bind_MkExec.
      by rewrite (IH _ _ Hu Hus).
    + unfold mret, Exec_ret. rewrite !bind_MkExec.
      rewrite (IH _ _ He Hus). by rewrite <- (scope_reads_underChart e He).
Qed.

Lemma scope_lifecycle_underChart sp e0 us :
  chartScope e0 = true →
  Forall (λ u, chartScope (env_after u) = true) us →
  lifecycle (scopePrimitiveEffect sp) e0 us
  = lifecycle (scopePrimitiveEffect sp) (underChart e0) (underChartUpdate <$> us).
Proof.
  intros H0 Hus. unfold lifecycle.
  rewrite (scopePrimitiveEffect_run sp e0), (scopePrimitiveEffect_run sp (underChart e0)).
  pose proof (scope_body_underChart sp _ H0) as Hb.
  rewrite !scopePrimitiveEffect_run in Hb. cbn [calls] in Hb. rewrite Hb.
  rewrite !bind_MkExec.
  by rewrite (scope_drive_underChart sp us e0 e0 H0 Hus).
Qed.

(** C10.  A Pane declared with explicit index 0 provides pane index 0, so for
    a series inside it the pane-scoped primitive list and the attached and
    detached callbacks are those of the chart: the effect attaches the
    chart's list and calls the chart's callbacks, and over its whole life it
    behaves exactly as the same series declared directly under the chart,
    without any Pane; the Pane's primitives and callbacks play no part. *)
Theorem C10_pane_index_zero_uses_chart_scope
    (f : family) (c : ChartContext) (props : PaneProps.t) :
  PaneProps.index props = Some 0 →
  Pane f (Some c) props = MkExec [] (Returned (providedPaneContext 0 props, ctx_chart c))
  ∧ (∀ sp cp sprops,
       let e := {| chartProps := cp; paneCtx := providedPaneContext 0 props;
                   seriesProps := sprops |} in
       currentPanePrimitives e = chartPrimitives cp
       ∧ calls (scopePrimitiveEffect sp e)
         = calls (attachPanePrimitives (chartPrimitives cp) sp)
           ++ calls (onChartPrimitivesAttached cp (chartPrimitives cp))
       ∧ (∀ now, calls (scope_cleanup sp e now)
                 = calls (detachPanePrimitives (chartPrimitives cp) sp)
                   ++ calls (onChartPrimitivesDetached (chartProps now)
                               (chartPrimitives cp))))
  ∧ (∀ sp e0 us,
       paneCtx e0 = providedPaneContext 0 props →
       Forall (λ u, paneIdx (paneCtx (env_after u)) = 0) us →
       lifecycle (scopePrimitiveEffect sp) e0 us
       = lifecycle (scopePrimitiveEffect sp) (underChart e0) (underChartUpdate <$> us)).
Proof.
  intros Hidx. split; [|split].
  - destruct f; cbn; by rewrite Hidx.
  - intros sp cp sprops e. split; [reflexivity|]. split.
    + by rewrite scopePrimitiveEffect_run.
    + intros now. by rewrite scope_cleanup_run.
  - intros sp e0 us H0 Hus. apply scope_lifecycle_underChart.
    + apply chartScope_true. by rewrite H0.
    + eapply Forall_impl; [exact Hus|]. intros u Hu. by apply chartScope_true.
Qed.

Lemma C10_pane_index_zero_witness :
  PaneProps.index (paneWith (Some 0) [p2]) = Some 0
  ∧ Pane TimeChart (Some {| ctx_chart := createChart; ctx_props := withChartPrimitives [p1] |})
      (paneWith (Some 0) [p2])
    = MkExec [] (Returned (providedPaneContext 0 (paneWith (Some 0) [p2]), createChart))
  ∧ calls (lifecycle (scopePrimitiveEffect (Some somePane))
             (seriesInPane 0 (paneWith (Some 0) [p2]) []) [])
    = [ pane_detachPrimitive somePane p1; pane_attachPrimitive somePane p1;
        cb_onPrimitivesAttached [p1];
        pane_detachPrimitive somePane p1; cb_onPrimitivesDetached [p1] ].
Proof.
  split; [reflexivity|].
  pose proof (C10_pane_index_zero_uses_chart_scope TimeChart
    {| ctx_chart := createChart; ctx_props := withChartPrimitives [p1] |}
    (paneWith (Some 0) [p2]) eq_refl) as (HPane & _ & Hlife).
  split; [exact HPane|].
  rewrite (Hlife (Some somePane) (seriesInPane 0 (paneWith (Some 0) [p2]) []) []
             eq_refl (Forall_nil_2 _)).
  reflexivity.
Defined.

(** * Further properties *)

(** ** attachPanePrimitives and detachPanePrimitives together *)

Lemma held_after_other_pane_detaches pn pn' held ps :
  pn ≠ pn' → held_after pn' held (pane_detachPrimitive pn <$> ps) = held.
Proof.
  intros Hne. induction ps as [|p ps IH]; [reflexivity|].
  cbn. by rewrite decide_False.
Qed.

Lemma held_after_other_pane_attaches pn pn' held ps :
  pn ≠ pn' → held_after pn' held (pane_attachPrimitive pn <$> ps) = held.
Proof.
  intros Hne. induction ps as [|p ps IH]; [reflexivity|].
  cbn. by rewrite decide_False.
Qed.

Lemma attachTwice_run ps pn :
  attachTwice ps (Some pn)
  = MkExec (((pane_detachPrimitive pn <$> ps) ++ (pane_attachPrimitive pn <$> ps))
            ++ ((pane_detachPrimitive pn <$> ps) ++ (pane_attachPrimitive pn <$> ps)))
           (Returned tt).
Proof. unfold attachTwice. by rewrite attachPanePrimitives_defined. Qed.

(** X1.  Attaching a list to a pane is idempotent: doing it twice in a row
    returns normally and leaves the pane holding exactly what one call
    leaves, the list added to what was held before; when the list has no
    repeated primitive, the second call never attaches a primitive that is
    still attached. *)
Theorem X1_attach_is_idempotent (ps : list primitive) (pn : paneApi)
    (held : gset primitive) :
  outcome (attachTwice ps (Some pn)) = Returned tt
  ∧ held_after pn held (calls (attachPanePrimitives ps (Some pn))) = list_to_set ps ∪ held
  ∧ held_after pn held (calls (attachTwice ps (Some pn)))
    = held_after pn held (calls (attachPanePrimitives ps (Some pn)))
  ∧ (NoDup ps → no_double_attach pn held (calls (attachTwice ps (Some pn))) = true).
Proof.
  assert (Hone : ∀ h : gset primitive,
    held_after pn h ((pane_detachPrimitive pn <$> ps) ++ (pane_attachPrimitive pn <$> ps))
    = list_to_set ps ∪ h).
  { intros h. rewrite held_after_app, held_after_detaches, held_after_attaches.
    apply set_eq. intros q.
    rewrite !elem_of_union, elem_of_difference.
    destruct (decide (q ∈@{gset primitive} list_to_set ps)); tauto. }
  rewrite attachTwice_run, attachPanePrimitives_defined. cbn [calls outcome].
  split; [reflexivity|]. split; [apply Hone|]. split.
  - rewrite held_after_app, !Hone. apply set_eq. intros q. rewrite !elem_of_union. tauto.
  - intros Hnd. rewrite no_double_attach_app.
    by rewrite !detach_then_attach_ok.
Qed.

Lemma X1_attach_is_idempotent_witness :
  NoDup [p1; p2]
  ∧ no_double_attach somePane {[p1]} (calls (attachTwice [p1; p2] (Some somePane))) = true.
Proof.
  assert (Hnd : NoDup [p1; p2]).
  { apply NoDup_cons. split; [|apply NoDup_singleton].
    intros H%list_elem_of_singleton. discriminate H. }
  split; [exact Hnd|].
  exact (proj2 (proj2 (proj2 (X1_attach_is_idempotent [p1; p2] somePane {[p1]}))) Hnd).
Defined.

(** X2.  Attaching a list to a pane and then detaching it leaves none of the
    list's primitives attached to that pane, removes from it nothing that is
    not in the list, and never changes what another pane holds. *)
Theorem X2_attach_then_detach_clears_the_list (ps : list primitive) (pn pn' : paneApi)
    (held : gset primitive) :
  pn ≠ pn' →
  outcome (attachThenDetach ps (Some pn)) = Returned tt
  ∧ held_after pn held (calls (attachThenDetach ps (Some pn))) = held ∖ list_to_set ps
  ∧ held_after pn' held (calls (attachThenDetach ps (Some pn))) = held.
Proof.
  intros Hne. unfold attachThenDetach.
  rewrite attachPanePrimitives_defined, detachPanePrimitives_defined.
  rewrite bind_MkExec. cbn [calls outcome].
  split; [reflexivity|]. split.
  - rewrite !held_after_app, !held_after_detaches, held_after_attaches.
    apply set_eq. intros q. rewrite !elem_of_difference, elem_of_union, elem_of_difference.
    tauto.
  - rewrite !held_after_app.
    rewrite (held_after_other_pane_detaches pn pn') by done.
    rewrite (held_after_other_pane_attaches pn pn') by done.
    by rewrite (held_after_other_pane_detaches pn pn').
Qed.

Lemma X2_attach_then_detach_witness :
  somePane ≠ 8%nat
  ∧ held_after somePane {[p1; 5%nat]} (calls (attachThenDetach [p1; p2] (Some somePane)))
    = {[p1; 5%nat]} ∖ list_to_set [p1; p2].
Proof.
  assert (Hne : somePane ≠ 8%nat) by discriminate.
  split; [exact Hne|].
  exact (proj1 (proj2
    (X2_attach_then_detach_clears_the_list [p1; p2] somePane 8%nat {[p1; 5%nat]} Hne))).
Defined.

(** ** The series-scoped primitive effect *)

Lemma exec_surjective {A} (m : Exec A) : MkExec (calls m) (outcome m) = m.
Proof. by destruct m. Qed.

Lemma seriesPrimitiveEffect_run e :
  seriesPrimitiveEffect e
  = MkExec ((series_attachPrimitive <$> series_primitives (seriesProps e))
            ++ (if SeriesProps.onAttachPrimitives (seriesProps e)
                then [cb_onAttachPrimitives (series_primitives (seriesProps e))] else []))
           (Returned (Run [src_series_primitives; src_onAttachPrimitives]
                          (series_cleanup e))).
Proof.
  change (seriesPrimitiveEffect e) with
    (for_of (series_primitives (seriesProps e))
       (λ primitive, emit (series_attachPrimitive primitive)) ;;
     optional_call (SeriesProps.onAttachPrimitives (seriesProps e))
       (cb_onAttachPrimitives (series_primitives (seriesProps e))) ;;
     mret (Run [src_series_primitives; src_onAttachPrimitives] (series_cleanup e))).
  rewrite for_of_emit, optional_call_returns, !bind_MkExec.
  cbn. by rewrite app_nil_r.
Qed.

Lemma series_cleanup_run e now :
  series_cleanup e now
  = MkExec ((series_detachPrimitive <$> series_primitives (seriesProps e))
            ++ (if SeriesProps.onDetachPrimitives (seriesProps now)
                then [cb_onDetachPrimitives (series_primitives (seriesProps e))] else []))
           (Returned tt).
Proof.
  unfold series_cleanup. rewrite for_of_emit, optional_call_returns.
  by rewrite bind_MkExec.
Qed.

Lemma series_attached_app t1 t2 :
  series_attached (t1 ++ t2) = series_attached t1 ++ series_attached t2.
Proof. apply omap_app. Qed.

Lemma series_detached_app t1 t2 :
  series_detached (t1 ++ t2) = series_detached t1 ++ series_detached t2.
Proof. apply omap_app. Qed.

Lemma series_attached_attaches ps : series_attached (series_attachPrimitive <$> ps) = ps.
Proof. induction ps as [|p ps IH]; [reflexivity|]. cbn. by f_equal. Qed.

Lemma series_detached_detaches ps : series_detached (series_detachPrimitive <$> ps) = ps.
Proof. induction ps as [|p ps IH]; [reflexivity|]. cbn. by f_equal. Qed.

Lemma series_attached_detaches ps : series_attached (series_detachPrimitive <$> ps) = [].
Proof. induction ps as [|p ps IH]; [reflexivity | exact IH]. Qed.

Lemma series_detached_attaches ps : series_detached (series_attachPrimitive <$> ps) = [].
Proof. induction ps as [|p ps IH]; [reflexivity | exact IH]. Qed.

(** X3.  When the series' own primitive list is replaced, the effect detaches
    exactly the previous list from the series, in order, reports it to the
    detach callback, then attaches exactly the new list, in order, and
    reports it to the attach callback.  Unlike the pane-scoped effect it does
    not detach the new list before attaching it. *)
Theorem X3_series_primitive_replacement (old new : SeriesEnv) (notes : list source) :
  src_series_primitives ∈ notes →
  let t := change_calls seriesPrimitiveEffect old (Update notes new) in
  t = (series_detachPrimitive <$> series_primitives (seriesProps old))
      ++ (if SeriesProps.onDetachPrimitives (seriesProps new)
          then [cb_onDetachPrimitives (series_primitives (seriesProps old))] else [])
      ++ (series_attachPrimitive <$> series_primitives (seriesProps new))
      ++ (if SeriesProps.onAttachPrimitives (seriesProps new)
          then [cb_onAttachPrimitives (series_primitives (seriesProps new))] else [])
  ∧ series_detached t = series_primitives (seriesProps old)
  ∧ series_attached t = series_primitives (seriesProps new).
Proof.
  intros Hn t.
  assert (Ht : t = (series_detachPrimitive <$> series_primitives (seriesProps old))
      ++ (if SeriesProps.onDetachPrimitives (seriesProps new)
          then [cb_onDetachPrimitives (series_primitives (seriesProps old))] else [])
      ++ (series_attachPrimitive <$> series_primitives (seriesProps new))
      ++ (if SeriesProps.onAttachPrimitives (seriesProps new)
          then [cb_onAttachPrimitives (series_primitives (seriesProps new))] else [])).
  { subst t. unfold change_calls. rewrite seriesPrimitiveEffect_run. cbn [outcome].
    erewrite rerun_stale; [| |apply series_cleanup_run].
    - cbn [env_after calls]. rewrite seriesPrimitiveEffect_run. cbn [calls].
      by rewrite <- !app_assoc.
    - eapply stale_intro; [|exact Hn]. left. }
  split; [exact Ht|]. rewrite Ht. clear Ht t. split.
  - rewrite !series_detached_app, series_detached_detaches, series_detached_attaches.
    destruct (SeriesProps.onDetachPrimitives _), (SeriesProps.onAttachPrimitives _);
      cbn; by rewrite ?app_nil_r.
  - rewrite !series_attached_app, series_attached_detaches, series_attached_attaches.
    destruct (SeriesProps.onDetachPrimitives _), (SeriesProps.onAttachPrimitives _);
      cbn; by rewrite ?app_nil_r.
Qed.

Lemma X3_series_primitive_replacement_witness :
  src_series_primitives ∈ [src_series_primitives]
  ∧ change_calls seriesPrimitiveEffect (seriesWithPrimitives [p1])
      (Update [src_series_primitives] (seriesWithPrimitives [p1; p2]))
    = [ series_detachPrimitive p1; cb_onDetachPrimitives [p1];
        series_attachPrimitive p1; series_attachPrimitive p2;
        cb_onAttachPrimitives [p1; p2] ].
Proof.
  assert (Hn : src_series_primitives ∈ [src_series_primitives]) by left.
  split; [exact Hn|].
  exact (proj1 (X3_series_primitive_replacement (seriesWithPrimitives [p1])
                  (seriesWithPrimitives [p1; p2]) [src_series_primitives] Hn)).
Defined.

Lemma series_drive_cons e cur u us :
  drive seriesPrimitiveEffect
    (Run [src_series_primitives; src_onAttachPrimitives] (series_cleanup e)) cur (u :: us)
  = if stale (Run [src_series_primitives; src_onAttachPrimitives] (series_cleanup e)) u
    then MkExec
           ((calls (series_cleanup e (env_after u))
             ++ calls (seriesPrimitiveEffect (env_after u)))
            ++ calls (drive seriesPrimitiveEffect
                        (Run [src_series_primitives; src_onAttachPrimitives]
                             (series_cleanup (env_after u))) (env_after u) us))
           (outcome (drive seriesPrimitiveEffect
                        (Run [src_series_primitives; src_onAttachPrimitives]
                             (series_cleanup (env_after u))) (env_after u) us))
    else drive seriesPrimitiveEffect
           (Run [src_series_primitives; src_onAttachPrimitives] (series_cleanup e))
           (env_after u) us.
Proof.
  cbn [drive]. destruct (stale _ u) eqn:Hs.
  - erewrite rerun_stale; [|exact Hs|apply series_cleanup_run].
    rewrite seriesPrimitiveEffect_run. cbn [outcome calls].
    rewrite bind_MkExec. by rewrite series_cleanup_run.
  - rewrite (rerun_fresh _ _ _ Hs), bind_MkExec. cbn [app]. apply exec_surjective.
Qed.

Lemma series_drive_balanced us : ∀ e cur,
  series_detached (calls (drive seriesPrimitiveEffect
     (Run [src_series_primitives; src_onAttachPrimitives] (series_cleanup e)) cur us))
  = series_primitives (seriesProps e)
    ++ series_attached (calls (drive seriesPrimitiveEffect
         (Run [src_series_primitives; src_onAttachPrimitives] (series_cleanup e)) cur us))
  ∧ outcome (drive seriesPrimitiveEffect
       (Run [src_series_primitives; src_onAttachPrimitives] (series_cleanup e)) cur us)
    = Returned tt.
Proof.
  induction us as [|u us IH]; intros e cur.
  - cbn [drive cleanup]. rewrite series_cleanup_run. cbn [calls outcome].
    rewrite series_detached_app, series_attached_app.
    rewrite series_detached_detaches, series_attached_detaches.
    split; [|reflexivity]. destruct (SeriesProps.onDetachPrimitives _); cbn;
      by rewrite ?app_nil_r.
  - rewrite series_drive_cons. destruct (stale _ u); [|apply IH].
    destruct (IH (env_after u) (env_after u)) as [IHb IHo].
    cbn [calls outcome]. split; [|exact IHo].
    rewrite series_cleanup_run, seriesPrimitiveEffect_run. cbn [calls].
    rewrite !series_detached_app, !series_attached_app.
    rewrite series_detached_detaches, series_attached_detaches.
    rewrite series_detached_attaches, series_attached_attaches, IHb.
    destruct (SeriesProps.onDetachPrimitives _), (SeriesProps.onAttachPrimitives _);
      cbn; by rewrite ?app_nil_r.
Qed.

(** X4.  Over the whole life of a series, from mount through any changes to
    unmount, the series-scoped effect returns normally and detaches from the
    series exactly the primitives it attached, the same number of times and
    in the same order: nothing it attached stays attached after unmount. *)
Theorem X4_series_primitives_all_detached (e0 : SeriesEnv)
    (us : list (update SeriesEnv)) :
  outcome (lifecycle seriesPrimitiveEffect e0 us) = Returned tt
  ∧ series_detached (calls (lifecycle seriesPrimitiveEffect e0 us))
    = series_attached (calls (lifecycle seriesPrimitiveEffect e0 us)).
Proof.
  unfold lifecycle. rewrite seriesPrimitiveEffect_run, bind_MkExec. cbn [calls outcome].
  destruct (series_drive_balanced us e0 e0) as [Hb Ho].
  split; [exact Ho|].
  rewrite !series_detached_app, !series_attached_app.
  rewrite series_detached_attaches, series_attached_attaches, Hb.
  destruct (SeriesProps.onAttachPrimitives _); cbn; by rewrite ?app_nil_r.
Qed.

(** ** The pane-scoped effect over its whole life, and shared panes *)

Lemma scope_drive_cons sp e cur u us :
  drive (scopePrimitiveEffect sp) (Run (scope_reads e) (scope_cleanup sp e)) cur (u :: us)
  = if stale (Run (scope_reads e) (scope_cleanup sp e)) u
    then MkExec
           ((calls (scope_cleanup sp e (env_after u))
             ++ calls (scopePrimitiveEffect sp (env_after u)))
            ++ calls (drive (scopePrimitiveEffect sp)
                        (Run (scope_reads (env_after u)) (scope_cleanup sp (env_after u)))
                        (env_after u) us))
           (outcome (drive (scopePrimitiveEffect sp)
                        (Run (scope_reads (env_after u)) (scope_cleanup sp (env_after u)))
                        (env_after u) us))
    else drive (scopePrimitiveEffect sp) (Run (scope_reads e) (scope_cleanup sp e))
           (env_after u) us.
Proof.
  cbn [drive]. destruct (stale _ u) eqn:Hs.
  - erewrite rerun_stale; [|exact Hs|apply scope_cleanup_run].
    rewrite scopePrimitiveEffect_run. cbn [outcome calls].
    rewrite bind_MkExec. by rewrite scope_cleanup_run.
  - rewrite (rerun_fresh _ _ _ Hs), bind_MkExec. cbn [app]. apply exec_surjective.
Qed.

Lemma held_after_scope_body pn e held :
  held_after pn held (calls (scopePrimitiveEffect (Some pn) e))
  = list_to_set (currentPanePrimitives e) ∪ held.
Proof.
  rewrite scopePrimitiveEffect_run. cbn [calls].
  rewrite held_after_app, (pane_silent_held _ _ _ (attachCallback_silent _ _ _)).
  rewrite attachPanePrimitives_defined. cbn [calls].
  rewrite held_after_app, held_after_detaches, held_after_attaches.
  apply set_eq. intros q. rewrite !elem_of_union, elem_of_difference.
  destruct (decide (q ∈@{gset primitive} list_to_set (currentPanePrimitives e))); tauto.
Qed.

Lemma held_after_scope_cleanup pn e now held :
  held_after pn held (calls (scope_cleanup (Some pn) e now))
  = held ∖ list_to_set (currentPanePrimitives e).
Proof.
  rewrite scope_cleanup_run. cbn [calls].
  rewrite held_after_app, (pane_silent_held _ _ _ (detachCallback_silent _ _ _)).
  rewrite detachPanePrimitives_defined. cbn [calls]. apply held_after_detaches.
Qed.

Lemma scope_drive_releases pn us : ∀ e cur (held : gset primitive),
  held_after pn held
    (calls (drive (scopePrimitiveEffect (Some pn))
              (Run (scope_reads e) (scope_cleanup (Some pn) e)) cur us))
  ⊆ held ∖ list_to_set (currentPanePrimitives e).
Proof.
  induction us as [|u us IH]; intros e cur held.
  - cbn [drive cleanup]. by rewrite held_after_scope_cleanup.
  - rewrite scope_drive_cons. destruct (stale _ u); [|apply IH].
    cbn [calls]. rewrite !held_after_app.
    rewrite held_after_scope_cleanup, held_after_scope_body.
    etrans; [apply IH|]. intros q.
    rewrite !elem_of_difference, elem_of_union, elem_of_difference. tauto.
Qed.

(** X5.  Over the whole life of a series on a resolved pane, from mount
    through any changes to unmount, the pane-scoped effect leaves attached to
    the pane nothing that was not attached before: every primitive it
    attached has been detached again, and the primitives of the first list
    are not attached at the end. *)
Theorem X5_scope_effect_releases_the_pane (pn : paneApi) (e0 : SeriesEnv)
    (us : list (update SeriesEnv)) (held : gset primitive) :
  held_after pn held (calls (lifecycle (scopePrimitiveEffect (Some pn)) e0 us)) ⊆ held
  ∧ (∀ p, p ∈ currentPanePrimitives e0 →
          p ∉ held_after pn held (calls (lifecycle (scopePrimitiveEffect (Some pn)) e0 us))).
Proof.
  assert (H : held_after pn held (calls (lifecycle (scopePrimitiveEffect (Some pn)) e0 us))
              ⊆ held ∖ list_to_set (currentPanePrimitives e0)).
  { unfold lifecycle. rewrite scopePrimitiveEffect_run, bind_MkExec. cbn [calls].
    rewrite held_after_app.
    pose proof (held_after_scope_body pn e0 held) as Hb.
    rewrite scopePrimitiveEffect_run in Hb. cbn [calls] in Hb. rewrite Hb.
    etrans; [apply scope_drive_releases|]. intros q.
    rewrite !elem_of_difference, elem_of_union. tauto. }
  split.
  - intros q Hq. by apply H, elem_of_difference in Hq as [Hq _].
  - intros p Hp Hin. apply H, elem_of_difference in Hin as [_ Hin].
    apply Hin. by apply elem_of_list_to_set.
Qed.

(** X6.  Over the whole life of a series on a resolved pane, when neither the
    first list nor any later list repeats a primitive, no primitive is ever
    attached to the pane while it is still attached, whatever the pane held
    before the series was mounted. *)
Theorem X6_scope_effect_never_attaches_twice (pn : paneApi) (e0 : SeriesEnv)
    (us : list (update SeriesEnv)) (held : gset primitive) :
  NoDup (currentPanePrimitives e0) →
  Forall (λ u, NoDup (currentPanePrimitives (env_after u))) us →
  no_double_attach pn held (calls (lifecycle (scopePrimitiveEffect (Some pn)) e0 us)) = true.
Proof. intros H0 Hus. by apply scope_lifecycle_no_double_attach. Qed.

Lemma X6_scope_effect_never_attaches_twice_witness :
  NoDup (currentPanePrimitives (seriesUnderChart [p1]))
  ∧ Forall (λ u, NoDup (currentPanePrimitives (env_after u)))
      [Update [src_chart_primitives] (seriesUnderChart [p1; p2])]
  ∧ no_double_attach somePane {[p2]}
      (calls (lifecycle (scopePrimitiveEffect (Some somePane)) (seriesUnderChart [p1])
                [Update [src_chart_primitives] (seriesUnderChart [p1; p2])]))
    = true.
Proof.
  assert (H1 : NoDup (currentPanePrimitives (seriesUnderChart [p1])))
    by apply NoDup_singleton.
  assert (H2 : Forall (λ u, NoDup (currentPanePrimitives (env_after u)))
      [Update [src_chart_primitives] (seriesUnderChart [p1; p2])]).
  { apply Forall_cons. split; [|apply Forall_nil_2].
    apply NoDup_cons. split; [|apply NoDup_singleton].
    intros H%list_elem_of_singleton. discriminate H. }
  split; [exact H1|]. split; [exact H2|].
  exact (X6_scope_effect_never_attaches_twice somePane (seriesUnderChart [p1])
           [Update [src_chart_primitives] (seriesUnderChart [p1; p2])] {[p2]} H1 H2).
Defined.

Lemma twoSeriesMount_run pn eA eB :
  twoSeriesMount (Some pn) eA eB
  = MkExec (calls (scopePrimitiveEffect (Some pn) eA)
            ++ calls (scopePrimitiveEffect (Some pn) eB))
           (Returned (Run (scope_reads eA) (scope_cleanup (Some pn) eA),
                      Run (scope_reads eB) (scope_cleanup (Some pn) eB))).
Proof.
  unfold twoSeriesMount.
  rewrite (scopePrimitiveEffect_run (Some pn) eA), bind_MkExec.
  rewrite (scopePrimitiveEffect_run (Some pn) eB), bind_MkExec.
  cbn. by rewrite app_nil_r.
Qed.

(** X7.  Two series of the same pane each run the pane-scoped effect: the
    pane's list is attached once per series (the second series detaches and
    attaches it again) and the attached callback is called once per series,
    each time after the series' attach calls and with the whole list: the
    chart's callback for two series of pane 0, the Pane declaration's
    callback for two series of one Pane declaration.  After both are mounted
    the pane holds the list, and with a list free of repetitions nothing was
    attached while still attached. *)
Theorem X7_each_series_of_a_pane_attaches_the_list (pn : paneApi) (eA eB : SeriesEnv)
    (held : gset primitive) :
  currentPanePrimitives eA = currentPanePrimitives eB →
  let l := currentPanePrimitives eA in
  let t := calls (twoSeriesMount (Some pn) eA eB) in
  attached_to pn t = l ++ l
  ∧ detached_from pn t = l ++ l
  ∧ held_after pn held t = list_to_set l ∪ held
  ∧ (NoDup l → no_double_attach pn held t = true)
  ∧ (paneIdx (paneCtx eA) = 0 → paneIdx (paneCtx eB) = 0 →
     ChartProps.onPrimitivesAttached (chartProps eA) = true →
     ChartProps.onPrimitivesAttached (chartProps eB) = true →
     t = (pane_detachPrimitive pn <$> l) ++ (pane_attachPrimitive pn <$> l)
         ++ [cb_onPrimitivesAttached l]
         ++ (pane_detachPrimitive pn <$> l) ++ (pane_attachPrimitive pn <$> l)
         ++ [cb_onPrimitivesAttached l])
  ∧ (∀ idx props, idx ≠ 0 →
       paneCtx eA = providedPaneContext idx props →
       paneCtx eB = providedPaneContext idx props →
       PaneProps.onAttachPrimitives props = true →
       t = (pane_detachPrimitive pn <$> l) ++ (pane_attachPrimitive pn <$> l)
           ++ [cb_pane_onAttachPrimitives l]
           ++ (pane_detachPrimitive pn <$> l) ++ (pane_attachPrimitive pn <$> l)
           ++ [cb_pane_onAttachPrimitives l]).
Proof.
  intros Heq l t. subst t. rewrite twoSeriesMount_run. cbn [calls].
  assert (Hheld : held_after pn held
            (calls (scopePrimitiveEffect (Some pn) eA)
             ++ calls (scopePrimitiveEffect (Some pn) eB))
          = list_to_set l ∪ held).
  { rewrite held_after_app, !held_after_scope_body, <- Heq. fold l.
    apply set_eq. intros q. rewrite !elem_of_union. tauto. }
  revert Hheld. rewrite !scopePrimitiveEffect_run. cbn [calls]. intros Hheld.
  rewrite !attachPanePrimitives_defined. cbn [calls]. rewrite <- Heq. fold l.
  pose proof (attachCallback_silent eA eA l) as HA.
  pose proof (attachCallback_silent eB eB l) as HB.
  refine (conj _ (conj _ (conj _ (conj _ (conj _ _))))).
  - rewrite !attached_to_app, !attached_to_detaches, !attached_to_attaches.
    rewrite !pane_silent_attached by done. cbn. by rewrite !app_nil_r.
  - rewrite !detached_from_app, !detached_from_detaches, !detached_from_attaches.
    rewrite !pane_silent_detached by done. cbn. by rewrite !app_nil_r.
  - revert Hheld. rewrite !attachPanePrimitives_defined. cbn [calls].
    by rewrite <- Heq.
  - intros Hnd.
    rewrite no_double_attach_app, no_double_attach_app, detach_then_attach_ok by done.
    rewrite pane_silent_no_double_attach by done. cbn [andb].
    rewrite no_double_attach_app, detach_then_attach_ok by done.
    by rewrite pane_silent_no_double_attach.
  - intros HiA HiB HcA HcB.
    unfold attachCallback, onChartPrimitivesAttached.
    rewrite (chartScope_true _ HiA), (chartScope_true _ HiB).
    rewrite !optional_call_returns, HcA, HcB. cbn [calls].
    by rewrite <- !app_assoc.
  - intros idx props Hidx HpA HpB Hcb.
    assert (HsA : chartScope eA = false).
    { unfold chartScope. rewrite HpA. by apply bool_decide_eq_false. }
    assert (HsB : chartScope eB = false).
    { unfold chartScope. rewrite HpB. by apply bool_decide_eq_false. }
    unfold attachCallback, onPanePrimitivesAttached.
    rewrite HsA, HsB, HpA, HpB.
    rewrite !optional_call_returns, Hcb. cbn [calls].
    by rewrite <- !app_assoc.
Qed.

Lemma X7_each_series_of_a_pane_witness :
  attached_to somePane
    (calls (twoSeriesMount (Some somePane) (seriesInPane 1 (paneWith None [p2]) [])
              (seriesInPane 1 (paneWith None [p2]) [(1, 5)])))
  = [p2; p2]
  ∧ calls (twoSeriesMount (Some somePane) (seriesInPane 1 (paneWith None [p2]) [])
             (seriesInPane 1 (paneWith None [p2]) [(1, 5)]))
    = [pane_detachPrimitive somePane p2; pane_attachPrimitive somePane p2;
       cb_pane_onAttachPrimitives [p2];
       pane_detachPrimitive somePane p2; pane_attachPrimitive somePane p2;
       cb_pane_onAttachPrimitives [p2]]
  ∧ calls (twoSeriesMount (Some somePane) (seriesUnderChart [p1])
             (seriesUnderChart [p1]))
    = [pane_detachPrimitive somePane p1; pane_attachPrimitive somePane p1;
       cb_onPrimitivesAttached [p1];
       pane_detachPrimitive somePane p1; pane_attachPrimitive somePane p1;
       cb_onPrimitivesAttached [p1]].
Proof.
  assert (H1 : (1 : Z) ≠ 0) by lia.
  split; [|split].
  - exact (proj1 (X7_each_series_of_a_pane_attaches_the_list somePane
      (seriesInPane 1 (paneWith None [p2]) [])
      (seriesInPane 1 (paneWith None [p2]) [(1, 5)]) ∅ eq_refl)).
  - exact (proj2 (proj2 (proj2 (proj2 (proj2
      (X7_each_series_of_a_pane_attaches_the_list somePane
         (seriesInPane 1 (paneWith None [p2]) [])
         (seriesInPane 1 (paneWith None [p2]) [(1, 5)]) ∅ eq_refl)))))
      1 (paneWith None [p2]) H1 eq_refl eq_refl eq_refl).
  - exact (proj1 (proj2 (proj2 (proj2 (proj2
      (X7_each_series_of_a_pane_attaches_the_list somePane
         (seriesUnderChart [p1]) (seriesUnderChart [p1]) ∅ eq_refl)))))
      eq_refl eq_refl eq_refl eq_refl).
Defined.

(** X8.  When two series share a pane and the first is unmounted while the
    second stays mounted, the cleanup of the first detaches the pane's list:
    afterwards none of the list's primitives is attached to the pane,
    although the second series has not been unmounted. *)
Theorem X8_unmounting_one_series_detaches_the_shared_list (pn : paneApi)
    (eA eB now : SeriesEnv) (held : gset primitive) :
  currentPanePrimitives eA = currentPanePrimitives eB →
  outcome (twoSeriesUnmountFirst (Some pn) eA eB now) = Returned tt
  ∧ held_after pn held (calls (twoSeriesUnmountFirst (Some pn) eA eB now))
    = held ∖ list_to_set (currentPanePrimitives eB)
  ∧ (∀ p, p ∈ currentPanePrimitives eB →
          p ∉ held_after pn held (calls (twoSeriesUnmountFirst (Some pn) eA eB now))).
Proof.
  intros Heq. unfold twoSeriesUnmountFirst.
  rewrite twoSeriesMount_run, bind_MkExec. cbn [fst cleanup calls outcome].
  rewrite scope_cleanup_run. cbn [calls outcome].
  assert (H : held_after pn held
     ((calls (scopePrimitiveEffect (Some pn) eA) ++ calls (scopePrimitiveEffect (Some pn) eB))
      ++ calls (detachPanePrimitives (currentPanePrimitives eA) (Some pn))
      ++ calls (detachCallback eA now (currentPanePrimitives eA)))
     = held ∖ list_to_set (currentPanePrimitives eB)).
  { rewrite !held_after_app, !held_after_scope_body.
    rewrite (pane_silent_held _ _ _ (detachCallback_silent _ _ _)).
    rewrite detachPanePrimitives_defined. cbn [calls].
    rewrite held_after_detaches, Heq.
    apply set_eq. intros q. rewrite !elem_of_difference, !elem_of_union. tauto. }
  split; [reflexivity|]. split; [exact H|].
  intros p Hp. rewrite H. intros [_ Hn]%elem_of_difference.
  apply Hn. by apply elem_of_list_to_set.
Qed.

Lemma X8_unmounting_one_series_witness :
  currentPanePrimitives (seriesInPane 1 (paneWith None [p2]) [])
  = currentPanePrimitives (seriesInPane 1 (paneWith None [p2]) [(1, 5)])
  ∧ calls (twoSeriesUnmountFirst (Some somePane)
             (seriesInPane 1 (paneWith None [p2]) [])
             (seriesInPane 1 (paneWith None [p2]) [(1, 5)])
             (seriesInPane 1 (paneWith None [p2]) []))
    = [ pane_detachPrimitive somePane p2; pane_attachPrimitive somePane p2;
        cb_pane_onAttachPrimitives [p2];
        pane_detachPrimitive somePane p2; pane_attachPrimitive somePane p2;
        cb_pane_onAttachPrimitives [p2];
        pane_detachPrimitive somePane p2; cb_pane_onDetachPrimitives [p2] ]
  ∧ held_after somePane ∅
      (calls (twoSeriesUnmountFirst (Some somePane)
                (seriesInPane 1 (paneWith None [p2]) [])
                (seriesInPane 1 (paneWith None [p2]) [(1, 5)])
                (seriesInPane 1 (paneWith None [p2]) [])))
    = ∅ ∖ list_to_set [p2].
Proof.
  split; [reflexivity|]. split; [reflexivity|].
  exact (proj1 (proj2 (X8_unmounting_one_series_detaches_the_shared_list somePane
    (seriesInPane 1 (paneWith None [p2]) [])
    (seriesInPane 1 (paneWith None [p2]) [(1, 5)])
    (seriesInPane 1 (paneWith None [p2]) []) ∅ eq_refl))).
Defined.

(** ** createSubscriptionEffect for any method pair *)

(** X9.  For any pair of subscribe and unsubscribe methods and whatever
    changes happen while it lives, the subscription effect returns normally
    and its whole log is the subscription of every given handler, in order,
    followed at disposal by the unsubscription of the same handlers in the
    same order.  Without handlers, or with an empty list, it makes no call,
    and a single handler behaves like the list holding just that handler. *)
Theorem X9_subscription_effect_is_balanced {Env : Type} (sub unsub : method)
    (env0 : Env) (us : list (update Env)) :
  (∀ hs, lifecycle (createSubscriptionEffect (sub, unsub) hs) env0 us
         = MkExec ((chart_method sub <$> from_option handlers_of [] hs)
                   ++ (chart_method unsub <$> from_option handlers_of [] hs))
                  (Returned tt))
  ∧ lifecycle (createSubscriptionEffect (sub, unsub) None) env0 us = MkExec [] (Returned tt)
  ∧ lifecycle (createSubscriptionEffect (sub, unsub) (Some (array []))) env0 us
    = MkExec [] (Returned tt)
  ∧ (∀ h, lifecycle (createSubscriptionEffect (sub, unsub) (Some (single h))) env0 us
          = lifecycle (createSubscriptionEffect (sub, unsub) (Some (array [h]))) env0 us).
Proof.
  split; [intros hs; apply createSubscriptionEffect_lifecycle|].
  split; [by rewrite createSubscriptionEffect_lifecycle|].
  split; [by rewrite createSubscriptionEffect_lifecycle|].
  intros h. by rewrite !createSubscriptionEffect_lifecycle.
Qed.

(** ** More on the pane index allocator *)

Lemma declarePanes_cons index rest chart :
  declarePanes (index :: rest) chart
  = ((Pane_paneIdx index chart).1
       :: (declarePanes rest (Pane_paneIdx index chart).2).1,
     (declarePanes rest (Pane_paneIdx index chart).2).2).
Proof.
  cbn [declarePanes]. destruct (Pane_paneIdx index chart) as [idx chart'].
  cbn [fst snd]. by destruct (declarePanes rest chart').
Qed.

Lemma declarePanes_automatic (indices : list (option Z)) : ∀ chart,
  automaticIndices indices (declarePanes indices chart).1
  = (λ k : nat, __nextPaneIndex chart + Z.of_nat k) <$> seq 0 (automaticCount indices)
  ∧ __nextPaneIndex (declarePanes indices chart).2
    = __nextPaneIndex chart + Z.of_nat (automaticCount indices)
  ∧ length (declarePanes indices chart).1 = length indices.
Proof.
  induction indices as [|index rest IH]; intros chart.
  - cbn. split; [done|]. split; [lia|done].
  - rewrite declarePanes_cons. cbn [fst snd].
    destruct (IH (Pane_paneIdx index chart).2) as (IHa & IHc & IHl).
    unfold automaticIndices, automaticCount in *.
    cbn [zip zip_with omap list_omap fst snd length].
    destruct index as [i|].
    + rewrite filter_cons_False by done. cbn [Pane_paneIdx fst snd] in *.
      split; [exact IHa|]. split; [exact IHc | by rewrite IHl].
    + rewrite filter_cons_True by done.
      cbn [Pane_paneIdx __getNextPaneIndex fst snd __nextPaneIndex length seq
           fmap list_fmap] in *.
      split; [|split; [rewrite IHc; lia | by rewrite IHl]].
      f_equal; [lia|]. rewrite IHa, <- seq_shift, <- list_fmap_compose.
      apply list_fmap_ext. intros _ k _. cbn. lia.
Qed.

(** X10.  Whatever explicit indices the Pane declarations of a chart carry,
    the declarations without explicit index get 1, 2, 3, ... in declaration
    order: explicit indices neither consume nor skip a counter value.  Every
    declaration gets an index and the counter ends at one more than the
    number of automatic declarations. *)
Theorem X10_automatic_indices_are_consecutive (indices : list (option Z)) :
  automaticIndices indices (declarePanes indices createChart).1
  = Z.of_nat <$> seq 1 (automaticCount indices)
  ∧ __nextPaneIndex (declarePanes indices createChart).2
    = 1 + Z.of_nat (automaticCount indices)
  ∧ length (declarePanes indices createChart).1 = length indices.
Proof.
  destruct (declarePanes_automatic indices createChart) as (Ha & Hc & Hl).
  split; [|split; [exact Hc | exact Hl]].
  rewrite Ha. cbn [__nextPaneIndex createChart].
  rewrite <- seq_shift, <- list_fmap_compose. apply list_fmap_ext.
  intros _ k _. cbn. lia.
Qed.

Lemma declarePanes_explicit (given : list Z) : ∀ chart,
  declarePanes (Some <$> given) chart = (given, chart).
Proof.
  induction given as [|i given IH]; intros chart; [reflexivity|].
  cbn [fmap list_fmap]. rewrite declarePanes_cons. cbn [Pane_paneIdx fst snd].
  by rewrite IH.
Qed.

(** X11.  Explicit indices are returned as they are and leave the counter
    untouched, and nothing checks them against it: a Pane declared with the
    explicit index the counter currently holds and a following Pane without
    index resolve to the same pane index, and so do two Panes declared with
    the same explicit index. *)
Theorem X11_explicit_indices_are_not_reserved (chart : ChartWithPaneState) :
  (∀ given : list Z, declarePanes (Some <$> given) chart = (given, chart))
  ∧ (declarePanes [Some (__nextPaneIndex chart); None] chart).1
    = [__nextPaneIndex chart; __nextPaneIndex chart]
  ∧ (declarePanes [None; Some (__nextPaneIndex chart)] chart).1
    = [__nextPaneIndex chart; __nextPaneIndex chart]
  ∧ (∀ i, (declarePanes [Some i; Some i] chart).1 = [i; i]).
Proof.
  split; [intros given; apply declarePanes_explicit|]. by repeat split.
Qed.

(** ** More on the resize effect *)

(** X12.  The autoSize option is followed at run time.  When it is switched
    from enabled to disabled, the chart is resized at once to the current
    width and height: when these are not negative the resize callback is then
    called; when one of them is negative the engine raises inside resize, the
    exception leaves the effect and the resize callback is not called.  When
    autoSize is switched from disabled to enabled, or anything else changes
    while it ends up enabled, no call is made. *)
Theorem X12_autoSize_switched_at_run_time (old new : ChartProps.t) (notes : list source) :
  (chart_autoSize old = true → chart_autoSize new = false → src_autoSize ∈ notes →
   let w := default 0 (ChartProps.width new) in
   let h := default 0 (ChartProps.height new) in
   let force := default false (ChartProps.forceRepaintOnResize new) in
   (0 ≤ w → 0 ≤ h →
    change_calls resizeEffect old (Update notes new)
    = chart_resize w h force
      :: (if ChartProps.onResize new then [cb_onResize w h] else [])
    ∧ outcome (lifecycle resizeEffect old [Update notes new]) = Returned tt)
   ∧ (w < 0 ∨ h < 0 →
      change_calls resizeEffect old (Update notes new) = [chart_resize w h force]
      ∧ outcome (lifecycle resizeEffect old [Update notes new]) = Thrown EngineError))
  ∧ (chart_autoSize new = true → change_calls resizeEffect old (Update notes new) = []).
Proof.
  split.
  - intros Ho Hnew Hn w h force.
    assert (Hs : stale (Run [src_autoSize] no_cleanup) (Update notes new) = true).
    { eapply stale_intro; [|exact Hn]. left. }
    split.
    + intros Hw Hh. split.
      * unfold change_calls. rewrite (resizeEffect_auto _ Ho). cbn [outcome].
        erewrite rerun_stale; [|exact Hs|reflexivity].
        cbn [env_after app calls]. by rewrite (resizeEffect_manual _ Hnew Hw Hh).
      * unfold lifecycle. rewrite (resizeEffect_auto _ Ho).
        rewrite bind_MkExec. cbn [outcome drive].
        erewrite rerun_stale; [|exact Hs|reflexivity].
        cbn [env_after app]. by rewrite (resizeEffect_manual _ Hnew Hw Hh).
    + intros Hneg. split.
      * unfold change_calls. rewrite (resizeEffect_auto _ Ho). cbn [outcome].
        erewrite rerun_stale; [|exact Hs|reflexivity].
        cbn [env_after app calls]. by rewrite (resizeEffect_rejected _ Hnew Hneg).
      * unfold lifecycle. rewrite (resizeEffect_auto _ Ho).
        rewrite bind_MkExec. cbn [outcome drive].
        erewrite rerun_stale; [|exact Hs|reflexivity].
        cbn [env_after app]. by rewrite (resizeEffect_rejected _ Hnew Hneg).
  - intros Hnew. unfold change_calls, rerun.
    destruct (chart_autoSize old) eqn:Ho.
    + rewrite (resizeEffect_auto _ Ho). cbn [outcome cleanup env_after].
      destruct (stale _ _); [|reflexivity].
      unfold no_cleanup. by rewrite (resizeEffect_auto _ Hnew).
    + destruct (resize_accepted (chart_width old) (chart_height old)) eqn:Hacc.
      * apply andb_true_iff in Hacc as [Hw%Z.leb_le Hh%Z.leb_le].
        rewrite (resizeEffect_manual _ Ho Hw Hh). cbn [outcome cleanup env_after].
        destruct (stale _ _); [|reflexivity].
        unfold no_cleanup. by rewrite (resizeEffect_auto _ Hnew).
      * unfold resizeEffect at 1, engine_call. by rewrite Ho, Hacc.
Qed.

Lemma X12_autoSize_switched_witness :
  (change_calls resizeEffect (withSize true 800 400)
     (Update [src_autoSize] (withSize false 800 400))
   = [chart_resize 800 400 false; cb_onResize 800 400]
   ∧ outcome (lifecycle resizeEffect (withSize true 800 400)
                [Update [src_autoSize] (withSize false 800 400)])
     = Returned tt)
  ∧ (change_calls resizeEffect (withSize true 800 400)
       (Update [src_autoSize] (withSize false (-5) 400))
     = [chart_resize (-5) 400 false]
     ∧ outcome (lifecycle resizeEffect (withSize true 800 400)
                  [Update [src_autoSize] (withSize false (-5) 400)])
       = Thrown EngineError)
  ∧ change_calls resizeEffect (withSize false 800 400)
      (Update [src_autoSize; src_width; src_height] (withSize true 1000 500))
    = [].
Proof.
  assert (Hn : src_autoSize ∈ [src_autoSize]) by left.
  split; [|split].
  - apply (proj1 (proj1 (X12_autoSize_switched_at_run_time (withSize true 800 400)
                           (withSize false 800 400) [src_autoSize])
                    eq_refl eq_refl Hn)); cbn; lia.
  - apply (proj2 (proj1 (X12_autoSize_switched_at_run_time (withSize true 800 400)
                           (withSize false (-5) 400) [src_autoSize])
                    eq_refl eq_refl Hn)).
    left. cbn. lia.
  - exact (proj2 (X12_autoSize_switched_at_run_time (withSize false 800 400)
                    (withSize true 1000 500) [src_autoSize; src_width; src_height])
             eq_refl).
Defined.

(** X13.  A chart mounted with autoSize disabled is resized once at mount,
    before any change, to its width and height props, a missing width or
    height counting as 0 and a missing force-repaint flag as false.  When
    the width and the height are not negative, the resize callback is then
    called and the effect completes; when one of them is negative, the
    engine raises inside resize and that call is the only one.  By default
    (autoSize not given) autoSize is enabled and mounting makes no resize
    call. *)
Theorem X13_resize_at_mount (p : ChartProps.t) :
  (ChartProps.autoSize p = Some false →
   let w := default 0 (ChartProps.width p) in
   let h := default 0 (ChartProps.height p) in
   let force := default false (ChartProps.forceRepaintOnResize p) in
   (0 ≤ w → 0 ≤ h →
    calls (resizeEffect p)
    = chart_resize w h force :: (if ChartProps.onResize p then [cb_onResize w h] else [])
    ∧ ∃ r, outcome (resizeEffect p) = Returned r)
   ∧ (w < 0 ∨ h < 0 →
      resizeEffect p = MkExec [chart_resize w h force] (Thrown EngineError)))
  ∧ (ChartProps.autoSize p = None → calls (resizeEffect p) = []).
Proof.
  split.
  - intros Ha w h force.
    assert (Hm : chart_autoSize p = false) by (unfold chart_autoSize; by rewrite Ha).
    split.
    + intros Hw Hh. rewrite (resizeEffect_manual _ Hm Hw Hh). split; [reflexivity|].
      by eexists.
    + intros Hneg. by rewrite (resizeEffect_rejected _ Hm Hneg).
  - intros Ha. rewrite resizeEffect_auto; [reflexivity|].
    unfold chart_autoSize. by rewrite Ha.
Qed.

Lemma X13_resize_at_mount_witness :
  calls (resizeEffect fixedHeightOnly) = [chart_resize 0 300 false; cb_onResize 0 300]
  ∧ resizeEffect (withSize false (-5) 300)
    = MkExec [chart_resize (-5) 300 false] (Thrown EngineError).
Proof.
  split.
  - apply (proj1 (proj1 (X13_resize_at_mount fixedHeightOnly) eq_refl)); cbn; lia.
  - apply (proj2 (proj1 (X13_resize_at_mount (withSize false (-5) 300)) eq_refl)).
    left. cbn. lia.
Defined.

(** ** Which change runs which series effect *)

Lemma stale_untouched {Env} (last : run Env) (u : update Env) :
  untouched (reads last) (notified u) → stale last u = false.
Proof.
  intros Hu. unfold stale. apply bool_decide_eq_false.
  intros (s & Hs & Hn)%Exists_exists. by apply (Hu s).
Qed.

Lemma change_calls_untouched {Env} (body : effect Env) old u t r :
  body old = MkExec t (Returned r) →
  untouched (reads r) (notified u) →
  change_calls body old u = [].
Proof.
  intros Hb Hu. unfold change_calls. rewrite Hb. cbn [outcome].
  by rewrite (rerun_fresh _ _ _ (stale_untouched _ _ Hu)).
Qed.

Lemma change_calls_touched {Env} (body : effect Env) old u t r s :
  body old = MkExec t (Returned r) →
  (∀ now, cleanup r now = MkExec [] (Returned tt)) →
  s ∈ reads r → s ∈ notified u →
  change_calls body old u = calls (body (env_after u)).
Proof.
  intros Hb Hc Hr Hn. unfold change_calls. rewrite Hb. cbn [outcome].
  by rewrite (rerun_stale _ _ _ [] (stale_intro _ _ _ Hr Hn) (Hc _)).
Qed.

(** X14.  The data effect runs again, setting the whole dataset and the
    markers anew, whenever the data, the marker function, the data-set
    callback or the markers-set callback changes, so a change of the marker
    function alone sets the unchanged data again; a change that touches none
    of these four causes no call of the data effect. *)
Theorem X14_data_effect_dependencies (old new : SeriesEnv) (notes : list source) :
  (src_data ∈ notes ∨ src_markers ∈ notes ∨ src_onSetData ∈ notes
   ∨ src_onSetMarkers ∈ notes →
   change_calls dataEffect old (Update notes new) = calls (dataEffect new))
  ∧ (src_data ∉ notes → src_markers ∉ notes → src_onSetData ∉ notes →
     src_onSetMarkers ∉ notes →
     change_calls dataEffect old (Update notes new) = [])
  ∧ ∃ rest, calls (dataEffect new)
            = series_setData (SeriesProps.data (seriesProps new)) :: rest.
Proof.
  split; [|split].
  - intros H.
    assert (∃ s, s ∈ [src_data; src_onSetData; src_markers; src_onSetMarkers]
                 ∧ s ∈ notes) as (s & Hs & Hn).
    { destruct H as [H|[H|[H|H]]]; eexists; (split; [|exact H]);
        repeat first [apply list_elem_of_here | apply list_elem_of_further]. }
    by apply (change_calls_touched dataEffect old (Update notes new) _ _ s
                (dataEffect_run old)).
  - intros H1 H2 H3 H4.
    apply (change_calls_untouched dataEffect old (Update notes new) _ _
             (dataEffect_run old)).
    intros s Hs. cbn [reads notified] in *.
    repeat (apply elem_of_cons in Hs as [->|Hs]; [done|]).
    by apply elem_of_nil in Hs.
  - rewrite dataEffect_run. cbn [calls]. eauto.
Qed.

Lemma X14_data_effect_dependencies_witness :
  (src_data ∈ [src_markers] ∨ src_markers ∈ [src_markers] ∨ src_onSetData ∈ [src_markers]
   ∨ src_onSetMarkers ∈ [src_markers])
  ∧ change_calls dataEffect (seriesInPane 1 (paneWith None []) [(1, 100)])
      (Update [src_markers] (seriesInPane 1 (paneWith None []) [(1, 100)]))
    = [ series_setData [(1, 100)]; cb_onSetData [(1, 100)];
        createSeriesMarkers [(1, 0%nat)]; cb_onSetMarkers [(1, 0%nat)] ].
Proof.
  assert (H : src_data ∈ [src_markers] ∨ src_markers ∈ [src_markers]
              ∨ src_onSetData ∈ [src_markers] ∨ src_onSetMarkers ∈ [src_markers])
    by (right; left; left).
  split; [exact H|].
  exact (proj1 (X14_data_effect_dependencies
                  (seriesInPane 1 (paneWith None []) [(1, 100)])
                  (seriesInPane 1 (paneWith None []) [(1, 100)]) [src_markers]) H).
Defined.

Lemma optionsEffect_run e :
  optionsEffect e = MkExec [series_applyOptions] (Returned (Run [src_seriesOptions] no_cleanup)).
Proof. reflexivity. Qed.

Ltac untouched_by_computation :=
  let s := fresh "s" in let Hs := fresh "Hs" in let Hn := fresh "Hn" in
  intros s Hs Hn; cbn [reads notified] in *;
  repeat match goal with
         | H : _ ∈ if ?b then _ else _ |- _ => destruct b
         end;
  repeat (apply elem_of_cons in Hs as [->|Hs];
          [apply list_elem_of_singleton in Hn; discriminate Hn|]);
  by apply elem_of_nil in Hs.

(** X15.  The four effects of a series are independent.  A change of the
    data alone runs the data effect only: nothing is detached from or
    attached to the pane or the series and the options are not applied
    again.  A change of the style options alone applies the options and
    neither sets the data again nor touches any primitive. *)
Theorem X15_series_effects_are_independent (sp : option paneApi) (old new : SeriesEnv) :
  change_calls (scopePrimitiveEffect sp) old (Update [src_data] new) = []
  ∧ change_calls seriesPrimitiveEffect old (Update [src_data] new) = []
  ∧ change_calls optionsEffect old (Update [src_data] new) = []
  ∧ change_calls dataEffect old (Update [src_seriesOptions] new) = []
  ∧ change_calls (scopePrimitiveEffect sp) old (Update [src_seriesOptions] new) = []
  ∧ change_calls seriesPrimitiveEffect old (Update [src_seriesOptions] new) = []
  ∧ change_calls optionsEffect old (Update [src_seriesOptions] new) = [series_applyOptions].
Proof.
  refine (conj _ (conj _ (conj _ (conj _ (conj _ (conj _ _)))))).
  - eapply change_calls_untouched; [apply scopePrimitiveEffect_run|].
    unfold scope_reads. untouched_by_computation.
  - eapply change_calls_untouched; [apply seriesPrimitiveEffect_run|].
    untouched_by_computation.
  - eapply change_calls_untouched; [apply optionsEffect_run|].
    untouched_by_computation.
  - eapply change_calls_untouched; [apply dataEffect_run|].
    untouched_by_computation.
  - eapply change_calls_untouched; [apply scopePrimitiveEffect_run|].
    unfold scope_reads. untouched_by_computation.
  - eapply change_calls_untouched; [apply seriesPrimitiveEffect_run|].
    untouched_by_computation.
  - reflexivity.
Qed.

(** ** More on the tooltip *)

Lemma outOfBounds_false container param :
  outOfBounds container param = false ↔
  ∃ pt v, MouseEventParams.point param = Some pt
          ∧ MouseEventParams.time param = Some v
          ∧ v ≠ horz_number 0 ∧ v ≠ horz_string ""
          ∧ 0 ≤ x pt ≤ clientWidth container
          ∧ 0 ≤ y pt ≤ clientHeight container.
Proof.
  unfold outOfBounds. destruct (MouseEventParams.point param) as [pt|]; last first.
  { split; [done | by intros (? & ? & [=] & _)]. }
  rewrite !orb_false_iff, negb_false_iff, !Z.ltb_ge.
  destruct (MouseEventParams.time param) as [v|]; last first.
  { cbn. split; [by intros [[[[[=] _] _] _] _] | by intros (? & ? & _ & [=] & _)]. }
  split.
  - intros [[[[Ht Hx] Hy] Hw] Hh]. exists pt, v.
    assert (Hv : ¬ (v = horz_number 0 ∨ v = horz_string "")).
    { intros Hv%truthy_defined. congruence. }
    repeat split; try done; try lia; intros ->; apply Hv; auto.
  - intros (pt' & v' & [= <-] & [= <-] & Hv0 & Hvs & Hx & Hy).
    repeat split; try lia.
    destruct (truthy (Some v)) eqn:Ht; [done|].
    apply truthy_defined in Ht as [->| ->]; done.
Qed.

(** X16.  A crosshair-move event shows the tooltip exactly when it carries a
    point, an axis value other than the number 0 and the empty string, and
    the point lies in the closed rectangle from (0, 0) to the chart
    element's width and height, borders included.  Then the tooltip props
    become those of the event and [onShow] is called; otherwise the tooltip is
    hidden, its props stay as they were and [onHide] is called.  Either way
    the handler returns normally with exactly one of the two callbacks. *)
Theorem X16_when_the_tooltip_is_shown (props : TooltipRootProps) (chart : nat)
    (container : chartElement) (st : TooltipState) (param : MouseEventParams.t) :
  let accepted :=
    ∃ pt v, MouseEventParams.point param = Some pt
            ∧ MouseEventParams.time param = Some v
            ∧ v ≠ horz_number 0 ∧ v ≠ horz_string ""
            ∧ 0 ≤ x pt ≤ clientWidth container
            ∧ 0 ≤ y pt ≤ clientHeight container in
  (accepted →
   onCrosshairMove props chart container st param
   = MkExec (if onShow props then [cb_onShow] else [])
            (Returned {| visible := true; tooltipProps := propsOfEvent chart param |}))
  ∧ (¬ accepted →
     onCrosshairMove props chart container st param
     = MkExec (if onHide props then [cb_onHide] else [])
              (Returned {| visible := false; tooltipProps := tooltipProps st |})).
Proof.
  intros accepted. split.
  - intros Ha%outOfBounds_false. by apply onCrosshairMove_shows.
  - intros Hn. apply onCrosshairMove_hides.
    destruct (outOfBounds container param) eqn:Ho; [done|].
    by apply outOfBounds_false in Ho.
Qed.

Lemma X16_when_the_tooltip_is_shown_witness :
  (∃ pt v, MouseEventParams.point (moveAt 800 0 (Some (horz_string "2023-01-01"))) = Some pt
           ∧ MouseEventParams.time (moveAt 800 0 (Some (horz_string "2023-01-01"))) = Some v
           ∧ v ≠ horz_number 0 ∧ v ≠ horz_string ""
           ∧ 0 ≤ x pt ≤ clientWidth chart800x400
           ∧ 0 ≤ y pt ≤ clientHeight chart800x400)
  ∧ onCrosshairMove bothTooltipCallbacks 0%nat chart800x400 (initialTooltip 0)
      (moveAt 800 0 (Some (horz_string "2023-01-01")))
    = MkExec [cb_onShow]
        (Returned {| visible := true;
                     tooltipProps :=
                       propsOfEvent 0 (moveAt 800 0 (Some (horz_string "2023-01-01"))) |}).
Proof.
  assert (Ha : ∃ pt v,
     MouseEventParams.point (moveAt 800 0 (Some (horz_string "2023-01-01"))) = Some pt
     ∧ MouseEventParams.time (moveAt 800 0 (Some (horz_string "2023-01-01"))) = Some v
     ∧ v ≠ horz_number 0 ∧ v ≠ horz_string ""
     ∧ 0 ≤ x pt ≤ clientWidth chart800x400
     ∧ 0 ≤ y pt ≤ clientHeight chart800x400).
  { exists {| x := 800; y := 0 |}, (horz_string "2023-01-01"). cbn.
    repeat split; try done; lia. }
  split; [exact Ha|].
  exact (proj1 (X16_when_the_tooltip_is_shown bothTooltipCallbacks 0%nat chart800x400
                  (initialTooltip 0) (moveAt 800 0 (Some (horz_string "2023-01-01")))) Ha).
Defined.

(** The callback one event causes. *)
Lemma onCrosshairMove_run props chart container st param :
  onCrosshairMove props chart container st param
  = MkExec (if outOfBounds container param
            then (if onHide props then [cb_onHide] else [])
            else (if onShow props then [cb_onShow] else []))
           (Returned
              {| visible := negb (outOfBounds container param);
                 tooltipProps := if outOfBounds container param then tooltipProps st
                                 else propsOfEvent chart param |}).
Proof.
  destruct (outOfBounds container param) eqn:Ho.
  - by apply onCrosshairMove_hides.
  - by apply onCrosshairMove_shows.
Qed.

Lemma crosshairMoves_run props chart events : ∀ st,
  crosshairMoves props chart st events
  = MkExec
      (flat_map (λ ev, if outOfBounds ev.1 ev.2
                       then (if onHide props then [cb_onHide] else [])
                       else (if onShow props then [cb_onShow] else [])) events)
      (Returned
         {| visible := from_option (λ ev, negb (outOfBounds ev.1 ev.2)) (visible st)
                                   (last events);
            tooltipProps := from_option (propsOfEvent chart) (tooltipProps st)
                                        (lastShown events) |}).
Proof.
  induction events as [|[c p] events IH]; intros st.
  - cbn. by destruct st.
  - cbn [crosshairMoves fst snd]. rewrite onCrosshairMove_run, bind_MkExec, IH.
    cbn [calls outcome flat_map fst snd visible tooltipProps]. f_equal. f_equal.
    unfold lastShown. rewrite last_cons.
    destruct (outOfBounds c p) eqn:Ho.
    + rewrite filter_cons_False by (cbn; congruence).
      f_equal. destruct (last events) as [ev|]; [done|]. cbn. by rewrite Ho.
    + rewrite filter_cons_True by done. rewrite last_cons.
      f_equal.
      * destruct (last events) as [ev|]; [done|]. cbn. by rewrite Ho.
      * by destruct (last (filter _ events)).
Qed.

(** X17.  Over any sequence of crosshair-move events the tooltip handler
    never throws and calls exactly one callback per event, [onHide] for a
    rejected event and [onShow] for an accepted one, without regard to the
    state it is in.  Whether the tooltip is visible at the end depends on the
    last event only, and its props are those of the last accepted event.  So
    a tooltip that starts hidden with the placeholder props is never visible
    with them: when it is visible, its point is defined with non-negative
    coordinates and its axis value is defined. *)
Theorem X17_tooltip_over_event_sequences (chart : nat)
    (events : list (chartElement * MouseEventParams.t)) (st : TooltipState) :
  calls (crosshairMoves bothTooltipCallbacks chart st events)
  = (λ ev, if outOfBounds ev.1 ev.2 then cb_onHide else cb_onShow) <$> events
  ∧ ∃ final,
      outcome (crosshairMoves bothTooltipCallbacks chart (initialTooltip chart) events)
      = Returned final
      ∧ visible final = from_option (λ ev, negb (outOfBounds ev.1 ev.2)) false (last events)
      ∧ tooltipProps final
        = from_option (propsOfEvent chart) (tooltipProps (initialTooltip chart))
                      (lastShown events)
      ∧ (visible final = true →
         ∃ pt v, TooltipProps.point (tooltipProps final) = Some pt
                 ∧ 0 ≤ x pt ∧ 0 ≤ y pt
                 ∧ TooltipProps.time (tooltipProps final) = Some v).
Proof.
  split.
  - rewrite crosshairMoves_run. cbn [calls].
    unfold bothTooltipCallbacks. cbn [onHide onShow].
    induction events as [|ev events IH]; [reflexivity|].
    cbn [flat_map fmap list_fmap]. rewrite IH.
    by destruct (outOfBounds ev.1 ev.2).
  - rewrite crosshairMoves_run. cbn [outcome]. eexists. split; [reflexivity|].
    cbn [visible tooltipProps]. split; [reflexivity|]. split; [reflexivity|].
    intros Hv. unfold lastShown.
    destruct (last events) as [[c p]|] eqn:Hl; [|discriminate Hv].
    cbn in Hv. apply negb_true_iff in Hv.
    apply last_Some in Hl as [l' ->].
    rewrite filter_app, filter_cons_True, filter_nil by done.
    rewrite last_snoc. cbn.
    apply outOfBounds_false in Hv as (pt & v & Hp & Ht & _ & _ & Hx & Hy).
    exists pt, v. repeat split; try done; lia.
Qed.

(** X18.  After an accepted crosshair-move event a tooltip without placement
    props is drawn 8 pixels right of and 8 pixels below the cursor point, so
    its corner lies between (8, 8) and (width + 8, height + 8) of the chart
    element, whatever the state before and wherever the chart is on the
    page; after a rejected event nothing is drawn. *)
Theorem X18_where_the_tooltip_is_drawn (props : TooltipRootProps) (chart : nat)
    (container : chartElement) (chartRect : Position) (st : TooltipState)
    (param : MouseEventParams.t) :
  (outOfBounds container param = false →
   ∃ pt, MouseEventParams.point param = Some pt
         ∧ drawnAfter props noLayout chart container chartRect st param
           = MkExec (if onShow props then [cb_onShow] else [])
                    (Returned (Some {| left := x pt + 8; top := y pt + 8 |}))
         ∧ 8 ≤ x pt + 8 ≤ clientWidth container + 8
         ∧ 8 ≤ y pt + 8 ≤ clientHeight container + 8)
  ∧ (outOfBounds container param = true →
     ∀ layout, drawnAfter props layout chart container chartRect st param
               = MkExec (if onHide props then [cb_onHide] else []) (Returned None)).
Proof.
  split.
  - intros Ho. pose proof Ho as (pt & v & Hp & _ & _ & _ & Hx & Hy)%outOfBounds_false.
    exists pt. split; [exact Hp|]. split; [|lia].
    unfold drawnAfter. rewrite (onCrosshairMove_shows _ _ _ _ _ Ho), bind_MkExec.
    cbn. rewrite Hp. cbn. by rewrite app_nil_r.
  - intros Ho layout. unfold drawnAfter.
    rewrite (onCrosshairMove_hides _ _ _ _ _ Ho), bind_MkExec.
    cbn. by rewrite app_nil_r.
Qed.

Lemma X18_where_the_tooltip_is_drawn_witness :
  outOfBounds chart800x400 (moveAt 10 20 (Some (horz_number 1))) = false
  ∧ ∃ pt, MouseEventParams.point (moveAt 10 20 (Some (horz_number 1))) = Some pt
          ∧ drawnAfter bothTooltipCallbacks noLayout 0%nat chart800x400
              {| left := 100; top := 50 |} (initialTooltip 0)
              (moveAt 10 20 (Some (horz_number 1)))
            = MkExec [cb_onShow] (Returned (Some {| left := x pt + 8; top := y pt + 8 |}))
          ∧ 8 ≤ x pt + 8 ≤ clientWidth chart800x400 + 8
          ∧ 8 ≤ y pt + 8 ≤ clientHeight chart800x400 + 8.
Proof.
  split; [reflexivity|].
  exact (proj1 (X18_where_the_tooltip_is_drawn bothTooltipCallbacks 0%nat chart800x400
                  {| left := 100; top := 50 |} (initialTooltip 0)
                  (moveAt 10 20 (Some (horz_number 1)))) eq_refl).
Defined.

(** X19.  The offset of the tooltip from the cursor: without an [offset]
    prop both coordinates are 8; with an [offset] object each coordinate it
    gives is used and each coordinate it leaves out is 10, not 8, because the
    default object is replaced as a whole.  A missing cursor point counts as
    (0, 0). *)
Theorem X19_tooltip_offset_defaults (ox oy : option Z) (chartRect : Position)
    (tp : TooltipProps.t) :
  tooltipPosition (layoutWith None None None) chartRect tp
  = {| left := from_option x 0 (TooltipProps.point tp) + 8;
       top := from_option y 0 (TooltipProps.point tp) + 8 |}
  ∧ tooltipPosition (layoutWith (Some {| offset_x := ox; offset_y := oy |}) None None)
      chartRect tp
    = {| left := from_option x 0 (TooltipProps.point tp) + default 10 ox;
         top := from_option y 0 (TooltipProps.point tp) + default 10 oy |}
  ∧ top (tooltipPosition (layoutWith (Some {| offset_x := ox; offset_y := None |}) None None)
           chartRect tp)
    = top (tooltipPosition (layoutWith None None None) chartRect tp) + 2.
Proof.
  split; [reflexivity|]. split; [reflexivity|]. cbn. lia.
Qed.

(** X20.  Fixed positioning and the position hook compose in this order: the
    position is the cursor point plus the offset; with [fixed] it is
    translated by the chart element's viewport origin, and without [fixed]
    that origin plays no part; the hook is applied last, to the translated
    position, and when it returns nothing the computed position is kept. *)
Theorem X20_fixed_then_hook (o : option Offset) (f : option bool)
    (hook : Position → option Position) (chartRect other : Position)
    (tp : TooltipProps.t) :
  tooltipPosition (layoutWith o (Some true) None) chartRect tp
  = translate chartRect (tooltipPosition (layoutWith o None None) chartRect tp)
  ∧ tooltipPosition (layoutWith o (Some false) None) chartRect tp
    = tooltipPosition (layoutWith o None None) other tp
  ∧ tooltipPosition (layoutWith o f (Some hook)) chartRect tp
    = default (tooltipPosition (layoutWith o f None) chartRect tp)
              (hook (tooltipPosition (layoutWith o f None) chartRect tp))
  ∧ tooltipPosition (layoutWith o f (Some (λ _, None))) chartRect tp
    = tooltipPosition (layoutWith o f None) chartRect tp.
Proof. by repeat split. Qed.


(** ** Mounting a series *)

Lemma Series_onMount_run custom panes e :
  0 ≤ paneIdx (paneCtx e) →
  Series_onMount custom panes e
  = MkExec
      ((if custom then chart_addCustomSeries (paneIdx (paneCtx e))
        else chart_addSeries (paneIdx (paneCtx e)))
       :: (if SeriesProps.onCreateSeries (seriesProps e)
           then [cb_onCreateSeries (paneIdx (paneCtx e))] else [])
       ++ calls (dataEffect e)
       ++ calls (scopePrimitiveEffect (lookup_index panes (paneIdx (paneCtx e))) e)
       ++ calls (seriesPrimitiveEffect e)
       ++ [series_applyOptions])
      (Returned tt).
Proof.
  intros Hidx. unfold Series_onMount, engine_call, paneIndex_accepted.
  rewrite (proj2 (Z.leb_le _ _) Hidx).
  rewrite optional_call_returns.
  rewrite (exec_eta _ _ (f_equal outcome (dataEffect_run e))).
  rewrite (exec_eta _ _ (f_equal outcome (scopePrimitiveEffect_run _ e))).
  rewrite (exec_eta _ _ (f_equal outcome (seriesPrimitiveEffect_run e))).
  rewrite optionsEffect_run.
  unfold emit. rewrite !bind_MkExec. cbn [calls outcome mret Exec_ret].
  cbn [app]. by rewrite ?app_nil_r.
Qed.

Lemma Series_onMount_rejected custom panes e :
  paneIdx (paneCtx e) < 0 →
  Series_onMount custom panes e
  = MkExec [if custom then chart_addCustomSeries (paneIdx (paneCtx e))
            else chart_addSeries (paneIdx (paneCtx e))]
           (Thrown EngineError).
Proof.
  intros Hidx. unfold Series_onMount, engine_call, paneIndex_accepted.
  by rewrite (proj2 (Z.leb_gt _ _) Hidx).
Qed.

Lemma lookup_index_None {A} (xs : list A) (i : Z) :
  lookup_index xs i = None ↔ i < 0 ∨ Z.of_nat (length xs) ≤ i.
Proof.
  unfold lookup_index. destruct (0 <=? i) eqn:Hi.
  - apply Z.leb_le in Hi. rewrite lookup_ge_None. lia.
  - apply Z.leb_gt in Hi. split; [by left | done].
Qed.

Lemma dataEffect_silent e : pane_silent (calls (dataEffect e)).
Proof.
  rewrite dataEffect_run. cbn [calls].
  destruct (SeriesProps.onSetData _), (SeriesProps.onSetMarkers _);
    repeat constructor.
Qed.

Lemma seriesPrimitiveEffect_silent e : pane_silent (calls (seriesPrimitiveEffect e)).
Proof.
  rewrite seriesPrimitiveEffect_run. cbn [calls]. apply pane_silent_app.
  - apply Forall_fmap, Forall_forall. by intros ? _.
  - destruct (SeriesProps.onAttachPrimitives _); repeat constructor.
Qed.

Lemma series_attached_scope sp e :
  series_attached (calls (scopePrimitiveEffect sp e)) = [].
Proof.
  rewrite scopePrimitiveEffect_run. cbn [calls]. rewrite series_attached_app.
  assert (Hcb : series_attached (calls (attachCallback e e (currentPanePrimitives e))) = []).
  { unfold attachCallback, onChartPrimitivesAttached, onPanePrimitivesAttached.
    destruct (chartScope e); [|destruct (paneCtx e)];
      rewrite ?optional_call_returns; cbn [calls];
      repeat match goal with |- context [if ?b then _ else _] => destruct b end;
      reflexivity. }
  rewrite Hcb, app_nil_r. destruct sp as [pn|]; [|reflexivity].
  rewrite attachPanePrimitives_defined. cbn [calls]. rewrite series_attached_app.
  assert (Hd : ∀ ps, series_attached (pane_detachPrimitive pn <$> ps) = [])
    by (intros ps; induction ps; [reflexivity | done]).
  assert (Ha : ∀ ps, series_attached (pane_attachPrimitive pn <$> ps) = [])
    by (intros ps; induction ps; [reflexivity | done]).
  by rewrite Hd, Ha.
Qed.

Lemma series_attached_data e : series_attached (calls (dataEffect e)) = [].
Proof.
  rewrite dataEffect_run. cbn [calls].
  by destruct (SeriesProps.onSetData _), (SeriesProps.onSetMarkers _).
Qed.

(** X21.  Mounting a Series or CustomSeries first creates the series, in the
    pane index of its pane context.  A negative index is rejected by the
    engine: the exception leaves the mount after that one call, so no
    callback is called and nothing is attached.  With an index that is not
    negative the mount never throws; the series' own primitives are
    attached; when the index is not below the number of panes, the mount
    makes no pane call at all; when the pane list has an entry at the index,
    exactly the pane-scoped list is attached to that pane. *)
Theorem X21_series_mount (custom : bool) (panes : list paneApi) (e : SeriesEnv) :
  head (calls (Series_onMount custom panes e))
  = Some (if custom then chart_addCustomSeries (paneIdx (paneCtx e))
          else chart_addSeries (paneIdx (paneCtx e)))
  ∧ (paneIdx (paneCtx e) < 0 →
     Series_onMount custom panes e
     = MkExec [if custom then chart_addCustomSeries (paneIdx (paneCtx e))
               else chart_addSeries (paneIdx (paneCtx e))]
              (Thrown EngineError))
  ∧ (0 ≤ paneIdx (paneCtx e) →
     outcome (Series_onMount custom panes e) = Returned tt
     ∧ series_attached (calls (Series_onMount custom panes e))
       = series_primitives (seriesProps e)
     ∧ (Z.of_nat (length panes) ≤ paneIdx (paneCtx e) →
        pane_silent (calls (Series_onMount custom panes e)))
     ∧ (∀ pn, lookup_index panes (paneIdx (paneCtx e)) = Some pn →
              attached_to pn (calls (Series_onMount custom panes e))
              = currentPanePrimitives e)).
Proof.
  split.
  { destruct (Z.lt_ge_cases (paneIdx (paneCtx e)) 0) as [Hneg|Hpos].
    - by rewrite (Series_onMount_rejected _ _ _ Hneg).
    - by rewrite (Series_onMount_run _ _ _ Hpos). }
  split; [apply Series_onMount_rejected|].
  intros Hidx. rewrite (Series_onMount_run _ _ _ Hidx). cbn [calls outcome].
  split; [reflexivity|].
  pose proof (dataEffect_silent e) as Hd.
  pose proof (seriesPrimitiveEffect_silent e) as Hs.
  assert (Hc : pane_silent (if SeriesProps.onCreateSeries (seriesProps e)
                            then [cb_onCreateSeries (paneIdx (paneCtx e))] else []))
    by (destruct (SeriesProps.onCreateSeries _); repeat constructor).
  assert (Ho : pane_silent [series_applyOptions]) by repeat constructor.
  assert (Hadd : pane_silent [if custom then chart_addCustomSeries (paneIdx (paneCtx e))
                              else chart_addSeries (paneIdx (paneCtx e))])
    by (destruct custom; repeat constructor).
  change (?c :: ?l) with ([c] ++ l).
  split; [|split].
  - rewrite !series_attached_app, series_attached_data, series_attached_scope.
    rewrite seriesPrimitiveEffect_run. cbn [calls].
    rewrite series_attached_app, series_attached_attaches.
    destruct custom, (SeriesProps.onCreateSeries _), (SeriesProps.onAttachPrimitives _);
      cbn; by rewrite ?app_nil_r.
  - intros Hlen.
    assert (Hi : lookup_index panes (paneIdx (paneCtx e)) = None)
      by (apply lookup_index_None; by right).
    rewrite Hi.
    do 3 (apply pane_silent_app; [done|]).
    apply pane_silent_app; [|by apply pane_silent_app].
    rewrite scopePrimitiveEffect_run. cbn [calls].
    apply pane_silent_app; [constructor | apply attachCallback_silent].
  - intros pn Hpn. rewrite Hpn.
    rewrite !attached_to_app.
    rewrite (pane_silent_attached pn _ Hadd), (pane_silent_attached pn _ Hc).
    rewrite (pane_silent_attached pn _ Hd), (pane_silent_attached pn _ Hs).
    rewrite (pane_silent_attached pn _ Ho).
    rewrite scopePrimitiveEffect_run, attachPanePrimitives_defined. cbn [calls].
    rewrite !attached_to_app, attached_to_detaches, attached_to_attaches.
    rewrite (pane_silent_attached _ _ (attachCallback_silent _ _ _)).
    cbn. by rewrite !app_nil_r.
Qed.

Lemma X21_series_mount_witness :
  Series_onMount false [somePane] (seriesInPane (-1) (paneWith (Some (-1)) [p1]) [])
  = MkExec [chart_addSeries (-1)] (Thrown EngineError)
  ∧ (outcome (Series_onMount false [somePane]
                (seriesInPane 3 (paneWith (Some 3) [p1]) []))
     = Returned tt
     ∧ pane_silent
         (calls (Series_onMount false [somePane]
                   (seriesInPane 3 (paneWith (Some 3) [p1]) []))))
  ∧ attached_to 9%nat
      (calls (Series_onMount true [somePane; 9%nat]
                (seriesInPane 1 (paneWith None [p1; p2]) [])))
    = [p1; p2].
Proof.
  split; [|split; [split|]].
  - apply (proj1 (proj2 (X21_series_mount false [somePane]
             (seriesInPane (-1) (paneWith (Some (-1)) [p1]) [])))).
    cbn. lia.
  - apply (proj2 (proj2 (X21_series_mount false [somePane]
             (seriesInPane 3 (paneWith (Some 3) [p1]) [])))).
    cbn. lia.
  - apply (proj2 (proj2 (X21_series_mount false [somePane]
             (seriesInPane 3 (paneWith (Some 3) [p1]) [])))); cbn; lia.
  - apply (proj2 (proj2 (X21_series_mount true [somePane; 9%nat]
             (seriesInPane 1 (paneWith None [p1; p2]) [])))); [cbn; lia | reflexivity].
Defined.

(** ** Container class and styles *)

(** X23.  The chart container always carries the class
    [solid-lwc-container] first; a user class follows it after one space, and
    an empty user class adds nothing.  Its style has [position: relative]
    unless the user's style sets [position], and keeps every entry of the
    user's style. *)
Theorem X23_container_class_and_style (class : option string)
    (style : gmap string cssValue) :
  String.prefix "solid-lwc-container" (classes class) = true
  ∧ classes (Some ""%string) = classes None
  ∧ (∀ c, c ≠ ""%string → classes (Some c) = ("solid-lwc-container " +:+ c)%string)
  ∧ containerStyle style !! "position"%string
    = Some (default (css_word "relative") (style !! "position"%string))
  ∧ (∀ k v, style !! k = Some v → containerStyle style !! k = Some v)
  ∧ (∀ k, k ≠ "position"%string → containerStyle style !! k = style !! k).
Proof.
  split; [|split; [reflexivity|split; [|split; [|split]]]].
  - destruct class as [c|]; [|reflexivity].
    unfold classes. by destruct (bool_decide (c = ""%string)).
  - intros c Hc. unfold classes. by rewrite bool_decide_false.
  - unfold containerStyle. rewrite lookup_union.
    rewrite lookup_singleton_eq.
    by destruct (style !! "position"%string).
  - intros k v Hk. unfold containerStyle. by apply lookup_union_Some_l.
  - intros k Hk. unfold containerStyle. rewrite lookup_union.
    rewrite lookup_singleton_ne by done. by destruct (style !! k).
Qed.

Lemma X23_container_class_and_style_witness :
  "chart"%string ≠ ""%string
  ∧ classes (Some "chart"%string) = "solid-lwc-container chart"%string.
Proof.
  assert (H : "chart"%string ≠ ""%string) by discriminate.
  split; [exact H|].
  exact (proj1 (proj2 (proj2 (X23_container_class_and_style None ∅))) "chart"%string H).
Defined.



(** ** Empty primitive lists *)

(** X25.  An empty pane-scoped list, as when the chart or the Pane gives no
    [primitives] prop, causes no pane call even on a resolved pane, yet the
    attached callback is still called at mount and the detached callback at
    unmount, each with the empty list.  The same holds for a series without
    primitives of its own. *)
Theorem X25_empty_primitive_lists (sp : option paneApi) (e : SeriesEnv) :
  (currentPanePrimitives e = [] →
   pane_silent (calls (lifecycle (scopePrimitiveEffect sp) e []))
   ∧ calls (lifecycle (scopePrimitiveEffect sp) e [])
     = calls (attachCallback e e []) ++ calls (detachCallback e e []))
  ∧ (ChartProps.primitives (chartProps e) = None → paneCtx e = defaultPaneContext →
     currentPanePrimitives e = []
     ∧ calls (lifecycle (scopePrimitiveEffect sp) e [])
       = (if ChartProps.onPrimitivesAttached (chartProps e)
          then [cb_onPrimitivesAttached []] else [])
         ++ (if ChartProps.onPrimitivesDetached (chartProps e)
             then [cb_onPrimitivesDetached []] else []))
  ∧ (SeriesProps.primitives (seriesProps e) = None →
     calls (lifecycle seriesPrimitiveEffect e [])
     = (if SeriesProps.onAttachPrimitives (seriesProps e)
        then [cb_onAttachPrimitives []] else [])
       ++ (if SeriesProps.onDetachPrimitives (seriesProps e)
           then [cb_onDetachPrimitives []] else [])).
Proof.
  assert (Hlife : calls (lifecycle (scopePrimitiveEffect sp) e [])
     = (calls (attachPanePrimitives (currentPanePrimitives e) sp)
        ++ calls (attachCallback e e (currentPanePrimitives e)))
       ++ calls (detachPanePrimitives (currentPanePrimitives e) sp)
       ++ calls (detachCallback e e (currentPanePrimitives e))).
  { unfold lifecycle. rewrite scopePrimitiveEffect_run, bind_MkExec.
    cbn [drive cleanup calls]. by rewrite scope_cleanup_run. }
  assert (Hempty : currentPanePrimitives e = [] →
     calls (lifecycle (scopePrimitiveEffect sp) e [])
     = calls (attachCallback e e []) ++ calls (detachCallback e e [])).
  { intros He. rewrite Hlife, He. by destruct sp. }
  split; [|split].
  - intros He. split; [|by apply Hempty]. rewrite (Hempty He).
    apply pane_silent_app; [apply attachCallback_silent | apply detachCallback_silent].
  - intros Hp Hc.
    assert (He : currentPanePrimitives e = []).
    { unfold currentPanePrimitives, chartScope, chartPrimitives. by rewrite Hc, Hp. }
    split; [exact He|]. rewrite (Hempty He).
    unfold attachCallback, detachCallback, chartScope. rewrite Hc.
    cbn [paneIdx]. rewrite bool_decide_true by done.
    unfold onChartPrimitivesAttached, onChartPrimitivesDetached.
    by rewrite !optional_call_returns.
  - intros Hp. unfold lifecycle. rewrite seriesPrimitiveEffect_run, bind_MkExec.
    cbn [drive cleanup calls]. rewrite series_cleanup_run. cbn [calls].
    unfold series_primitives. rewrite Hp. reflexivity.
Qed.

Lemma X25_empty_primitive_lists_witness :
  currentPanePrimitives (seriesUnderChart []) = []
  ∧ calls (lifecycle (scopePrimitiveEffect (Some somePane)) (seriesUnderChart []) [])
    = [cb_onPrimitivesAttached []; cb_onPrimitivesDetached []].
Proof.
  split; [reflexivity|].
  exact (proj2 (proj1 (X25_empty_primitive_lists (Some somePane) (seriesUnderChart []))
                  eq_refl)).
Defined.

Lemma X5_scope_effect_releases_the_pane_witness :
  p1 ∈ currentPanePrimitives (seriesUnderChart [p1])
  ∧ p1 ∉ held_after somePane {[p1; p2]}
           (calls (lifecycle (scopePrimitiveEffect (Some somePane)) (seriesUnderChart [p1])
                     [Update [src_chart_primitives] (seriesUnderChart [p2])])).
Proof.
  assert (H : p1 ∈ currentPanePrimitives (seriesUnderChart [p1])) by left.
  split; [exact H|].
  exact (proj2 (X5_scope_effect_releases_the_pane somePane (seriesUnderChart [p1])
                  [Update [src_chart_primitives] (seriesUnderChart [p2])] {[p1; p2]})
           p1 H).
Defined.

Lemma X17_tooltip_over_event_sequences_witness :
  ∃ final,
    outcome (crosshairMoves bothTooltipCallbacks 0%nat (initialTooltip 0)
               [(chart800x400, moveAt (-1) 0 (Some (horz_number 1)));
                (chart800x400, moveAt 10 20 (Some (horz_number 1)))])
    = Returned final
    ∧ visible final = true
    ∧ ∃ pt v, TooltipProps.point (tooltipProps final) = Some pt
              ∧ 0 ≤ x pt ∧ 0 ≤ y pt
              ∧ TooltipProps.time (tooltipProps final) = Some v.
Proof.
  destruct (proj2 (X17_tooltip_over_event_sequences 0%nat
    [(chart800x400, moveAt (-1) 0 (Some (horz_number 1)));
     (chart800x400, moveAt 10 20 (Some (horz_number 1)))] (initialTooltip 0)))
    as (final & Ho & Hv & _ & Himp).
  exists final. split; [exact Ho|]. split; [exact Hv|]. exact (Himp Hv).
Defined.
